(** * Verification of scripts/web_scraper.py

    A shallow embedding of the [WebScraper] class: URL normalisation,
    the content locator, the table and block renderers and the recursive
    crawl, followed by the properties stated about them.

    Python [str] values are embedded as [list ascii]; the development
    therefore covers strings over the code points 0..255.  The library
    routines the script calls ([urllib.parse] of CPython 3.11, the
    navigation methods of BeautifulSoup 4 and the handful of [re]
    patterns) are embedded from their library sources. *)

From Stdlib Require Import ZArith Lia List Ascii String Bool.
From stdpp Require Import base list gmap strings relations.

Open Scope list_scope.

Abbreviation str := (list ascii).

(** The literal ["..."] as a Python string. *)
Definition lit (s : string) : str := list_ascii_of_string s.

(** ** Python string primitives *)

Module Py.

Definition chr_eqb (a b : ascii) : bool := Ascii.eqb a b.

Definition mem (c : ascii) (s : str) : bool := existsb (chr_eqb c) s.

Definition str_eqb (a b : str) : bool := bool_decide (a = b).

(** [bool(s)] for a string: non-empty. *)
Definition truthy (s : str) : bool :=
  match s with [] => false | _ :: _ => true end.

(** [str.isspace] on one code point below 256. *)
Definition isspace (c : ascii) : bool :=
  let n := nat_of_ascii c in
  ((9 <=? n) && (n <=? 13)) || ((28 <=? n) && (n <=? 32))
  || (n =? 133) || (n =? 160).

Definition is_upper (c : ascii) : bool :=
  let n := nat_of_ascii c in (65 <=? n) && (n <=? 90).

Definition is_lower (c : ascii) : bool :=
  let n := nat_of_ascii c in (97 <=? n) && (n <=? 122).

Definition is_digit (c : ascii) : bool :=
  let n := nat_of_ascii c in (48 <=? n) && (n <=? 57).

(** [c.isascii() and c.isalpha()] *)
Definition is_ascii_alpha (c : ascii) : bool := is_upper c || is_lower c.

(** [str.lower] restricted to the ASCII letters. *)
Definition lower_chr (c : ascii) : ascii :=
  if is_upper c then ascii_of_nat (nat_of_ascii c + 32) else c.

Definition lower (s : str) : str := map lower_chr s.

Fixpoint drop_while (p : ascii -> bool) (s : str) : str :=
  match s with
  | [] => []
  | c :: s' => if p c then drop_while p s' else s
  end.

(** [s.lstrip(chars)], [s.rstrip(chars)] and [s.strip(chars)], the
    character set given as a predicate. *)
Definition lstrip_by (p : ascii -> bool) (s : str) : str := drop_while p s.

Definition rstrip_by (p : ascii -> bool) (s : str) : str :=
  rev (drop_while p (rev s)).

Definition strip_by (p : ascii -> bool) (s : str) : str :=
  rstrip_by p (lstrip_by p s).

(** [s.strip()] *)
Definition strip (s : str) : str := strip_by isspace s.

(** [s.rstrip('/')] *)
Definition rstrip_slash (s : str) : str := rstrip_by (chr_eqb "/"%char) s.

(** [s.partition(c)]: [Some (before, after)] at the first occurrence of
    the character [c], [None] when [c] does not occur.  It also stands
    for [i = s.find(c)] followed by [s[:i]], [s[i+1:]]. *)
Fixpoint split1 (c : ascii) (s : str) : option (str * str) :=
  match s with
  | [] => None
  | x :: s' =>
      if chr_eqb x c then Some ([], s')
      else match split1 c s' with
           | Some (a, b) => Some (x :: a, b)
           | None => None
           end
  end.

(** Split at the first character satisfying [p]; the delimiter stays at
    the head of the second part. *)
Fixpoint break_at (p : ascii -> bool) (s : str) : str * str :=
  match s with
  | [] => ([], [])
  | x :: s' =>
      if p x then ([], s)
      else let '(a, b) := break_at p s' in (x :: a, b)
  end.

(** [s.split(c)] for a one-character separator. *)
Fixpoint split (c : ascii) (s : str) : list str :=
  match s with
  | [] => [[]]
  | x :: s' =>
      match split c s' with
      | seg :: segs => if chr_eqb x c then [] :: seg :: segs
                       else (x :: seg) :: segs
      | [] => [[]]
      end
  end.

(** [sep.join(parts)] *)
Fixpoint join (sep : str) (parts : list str) : str :=
  match parts with
  | [] => []
  | [p] => p
  | p :: ps => p ++ sep ++ join sep ps
  end.

(** [s.startswith(p)] *)
Fixpoint startswith (p s : str) : bool :=
  match p, s with
  | [], _ => true
  | _ :: _, [] => false
  | a :: p', b :: s' => chr_eqb a b && startswith p' s'
  end.

(** [sub in s] for a substring. *)
Fixpoint contains (sub s : str) : bool :=
  startswith sub s ||
  match s with
  | [] => false
  | _ :: s' => contains sub s'
  end.

(** [s.replace(old, '')] for a non-empty [old]: every non-overlapping
    occurrence, scanning from the left, is removed. *)
Fixpoint remove_sub_fuel (fuel : nat) (old s : str) : str :=
  match fuel with
  | O => s
  | S f =>
      match s with
      | [] => []
      | c :: s' =>
          if startswith old s
          then remove_sub_fuel f old (skipn (List.length old) s)
          else c :: remove_sub_fuel f old s'
      end
  end.

Definition remove_sub (old s : str) : str :=
  remove_sub_fuel (S (List.length s)) old s.

(** Removal of single characters: [for b in chars: s = s.replace(b, "")]. *)
Definition remove_chars (chars : str) (s : str) : str :=
  List.filter (fun c => negb (mem c chars)) s.

(** Decimal rendering of a natural number, as [str(i)] gives. *)
Fixpoint digits_fuel (fuel n : nat) (acc : str) : str :=
  match fuel with
  | O => acc
  | S f =>
      let d := ascii_of_nat (48 + n mod 10) in
      if n <? 10 then d :: acc else digits_fuel f (n / 10) (d :: acc)
  end.

Definition str_of_nat (n : nat) : str := digits_fuel (S n) n [].

End Py.

(** ** [urllib.parse]

    [urlsplit], [urlparse], [urlunsplit], [urlunparse] and [urljoin] as
    CPython 3.11 defines them, for [str] arguments and the default
    [allow_fragments=True].  A [ValueError] is the result [None]. *)

(** Validation of a bracketed host ([_check_bracketed_host]: an IPvFuture
    literal or an address accepted by [ipaddress] that is not IPv4).  The
    address grammar belongs to the [ipaddress] library and is taken as an
    interface. *)
Class HostCheck := bracketed_host_ok : str -> bool.

Module Url.

Record SplitResult := mkSplit {
  s_scheme : str; s_netloc : str; s_path : str;
  s_query : str; s_fragment : str }.

Record ParseResult := mkParse {
  scheme : str; netloc : str; path : str;
  params : str; query : str; fragment : str }.

Definition uses_relative : list str :=
  map lit [""; "ftp"; "http"; "gopher"; "nntp"; "imap"; "wais"; "file";
           "https"; "shttp"; "mms"; "prospero"; "rtsp"; "rtspu"; "sftp";
           "svn"; "svn+ssh"; "ws"; "wss"]%string.

Definition uses_netloc : list str :=
  map lit [""; "ftp"; "http"; "gopher"; "nntp"; "telnet"; "imap"; "wais";
           "file"; "mms"; "https"; "shttp"; "snews"; "prospero"; "rtsp";
           "rtspu"; "rsync"; "svn"; "svn+ssh"; "sftp"; "nfs"; "git";
           "git+ssh"; "ws"; "wss"]%string.

Definition uses_params : list str :=
  map lit [""; "ftp"; "hdl"; "prospero"; "http"; "imap"; "https"; "shttp";
           "rtsp"; "rtspu"; "sip"; "sips"; "mms"; "sftp"; "tel"]%string.

Definition in_list (s : str) (l : list str) : bool :=
  existsb (Py.str_eqb s) l.

(** [c in scheme_chars] *)
Definition is_scheme_chr (c : ascii) : bool :=
  Py.is_lower c || Py.is_upper c || Py.is_digit c || Py.mem c (lit "+-.").

(** [_WHATWG_C0_CONTROL_OR_SPACE] *)
Definition is_c0_or_space (c : ascii) : bool := nat_of_ascii c <=? 32.

(** [_UNSAFE_URL_BYTES_TO_REMOVE] *)
Definition unsafe_bytes : str :=
  [ascii_of_nat 9; ascii_of_nat 13; ascii_of_nat 10].

Definition is_netloc_delim (c : ascii) : bool := Py.mem c (lit "/?#").

(** [_splitnetloc(url, 2)]: the domain runs from index 2 to the earliest
    of ['/'], ['?'], ['#'], or to the end. *)
Definition splitnetloc (url : str) : str * str :=
  Py.break_at is_netloc_delim (skipn 2 url).

(** [s.rpartition(c)[2]]: the part after the last [c], or [s]. *)
Definition after_last (c : ascii) (s : str) : str :=
  List.last (Py.split c s) s.

Section WithHostCheck.
Context `{HC : HostCheck}.

(** [_check_bracketed_netloc]; [false] stands for the [ValueError]. *)
Definition check_bracketed_netloc (netloc : str) : bool :=
  let hostname_and_port := after_last "@"%char netloc in
  match Py.split1 "["%char hostname_and_port with
  | Some (before_bracket, bracketed) =>
      if Py.truthy before_bracket then false
      else
        let '(hostname, port) :=
          match Py.split1 "]"%char bracketed with
          | Some (h, p) => (h, p)
          | None => (bracketed, [])
          end in
        if Py.truthy port && negb (Py.startswith (lit ":") port) then false
        else bracketed_host_ok hostname
  | None =>
      let hostname :=
        match Py.split1 ":"%char hostname_and_port with
        | Some (h, _) => h
        | None => hostname_and_port
        end in
      bracketed_host_ok hostname
  end.

(** The two bracket tests of [urlsplit] on the network location. *)
Definition netloc_ok (netloc : str) : bool :=
  let lb := Py.mem "["%char netloc in
  let rb := Py.mem "]"%char netloc in
  if (lb && negb rb) || (rb && negb lb) then false
  else if lb && rb then check_bracketed_netloc netloc
  else true.

(** [urlsplit(url, scheme)].  [_checknetloc] rejects a network location
    only when NFKC normalisation of a non-ASCII character produces one of
    [/?#@:]; no code point below 256 does, so it is the identity here. *)
Definition urlsplit (url scheme : str) : option SplitResult :=
  let url := Py.lstrip_by is_c0_or_space url in
  let scheme := Py.strip_by is_c0_or_space scheme in
  let url := Py.remove_chars unsafe_bytes url in
  let scheme := Py.remove_chars unsafe_bytes scheme in
  let '(scheme, url) :=
    match Py.split1 ":"%char url with
    | Some (c :: pre, post) =>
        if Py.is_ascii_alpha c && forallb is_scheme_chr (c :: pre)
        then (Py.lower (c :: pre), post)
        else (scheme, url)
    | _ => (scheme, url)
    end in
  let split_rest (netloc url : str) :=
    let '(url, fragment) :=
      match Py.split1 "#"%char url with
      | Some (a, b) => (a, b)
      | None => (url, [])
      end in
    let '(url, query) :=
      match Py.split1 "?"%char url with
      | Some (a, b) => (a, b)
      | None => (url, [])
      end in
    mkSplit scheme netloc url query fragment in
  if Py.startswith (lit "//") url then
    let '(netloc, url) := splitnetloc url in
    if netloc_ok netloc then Some (split_rest netloc url) else None
  else Some (split_rest [] url).

(** [_splitparams(url)] *)
Definition splitparams (url : str) : str * str :=
  if Py.mem "/"%char url then
    (* i = url.find(';', url.rfind('/')) *)
    let tail := after_last "/"%char url in
    let head := firstn (List.length url - List.length tail) url in
    match Py.split1 ";"%char tail with
    | Some (a, b) => (head ++ a, b)
    | None => (url, [])
    end
  else
    match Py.split1 ";"%char url with
    | Some (a, b) => (a, b)
    | None => (firstn (List.length url - 1) url, url)
    end.

(** [urlparse(url, scheme)] *)
Definition urlparse (url scheme : str) : option ParseResult :=
  match urlsplit url scheme with
  | None => None
  | Some r =>
      let '(url, params) :=
        if in_list (s_scheme r) uses_params && Py.mem ";"%char (s_path r)
        then splitparams (s_path r)
        else (s_path r, []) in
      Some (mkParse (s_scheme r) (s_netloc r) url params
                    (s_query r) (s_fragment r))
  end.

(** [urlunsplit((scheme, netloc, url, query, fragment))] *)
Definition urlunsplit (scheme netloc url query fragment : str) : str :=
  let url :=
    if Py.truthy netloc
       || (Py.truthy scheme && in_list scheme uses_netloc
           && negb (Py.str_eqb (firstn 2 url) (lit "//")))
    then
      let url :=
        if Py.truthy url && negb (Py.str_eqb (firstn 1 url) (lit "/"))
        then lit "/" ++ url else url in
      lit "//" ++ netloc ++ url
    else url in
  let url := if Py.truthy scheme then scheme ++ lit ":" ++ url else url in
  let url := if Py.truthy query then url ++ lit "?" ++ query else url in
  let url := if Py.truthy fragment then url ++ lit "#" ++ fragment else url in
  url.

(** [urlunparse((scheme, netloc, url, params, query, fragment))] *)
Definition urlunparse (scheme netloc url params query fragment : str) : str :=
  let url := if Py.truthy params then url ++ lit ";" ++ params else url in
  urlunsplit scheme netloc url query fragment.

(** [segments[1:-1] = filter(None, segments[1:-1])] *)
Definition filter_middle (segments : list str) : list str :=
  match segments with
  | [] => []
  | first :: rest =>
      match rest with
      | [] => [first]
      | _ :: _ =>
          first :: List.filter Py.truthy (removelast rest) ++ [List.last rest []]
      end
  end.

(** The loop of [urljoin] over the segments: [..] pops (an empty stack is
    left alone), [.] is skipped, anything else is pushed. *)
Definition resolve_step (resolved_path : list str) (seg : str) : list str :=
  if Py.str_eqb seg (lit "..") then removelast resolved_path
  else if Py.str_eqb seg (lit ".") then resolved_path
  else resolved_path ++ [seg].

Definition resolve_segments (segments : list str) : list str :=
  let resolved_path := fold_left resolve_step segments [] in
  let final := List.last segments [] in
  if Py.str_eqb final (lit ".") || Py.str_eqb final (lit "..")
  then resolved_path ++ [[]] else resolved_path.

(** [urljoin(base, url)] *)
Definition urljoin (base url : str) : option str :=
  if negb (Py.truthy base) then Some url
  else if negb (Py.truthy url) then Some base
  else
    match urlparse base [] with
    | None => None
    | Some b =>
        match urlparse url (scheme b) with
        | None => None
        | Some u =>
            if negb (Py.str_eqb (scheme u) (scheme b))
               || negb (in_list (scheme u) uses_relative)
            then Some url
            else if in_list (scheme u) uses_netloc && Py.truthy (netloc u)
            then Some (urlunparse (scheme u) (netloc u) (path u)
                                  (params u) (query u) (fragment u))
            else
              let netloc :=
                if in_list (scheme u) uses_netloc then netloc b else netloc u in
              if negb (Py.truthy (path u)) && negb (Py.truthy (params u))
              then
                let query := if Py.truthy (query u) then query u else query b in
                Some (urlunparse (scheme u) netloc (path b) (params b)
                                 query (fragment u))
              else
                let base_parts := Py.split "/"%char (path b) in
                let base_parts :=
                  if Py.truthy (List.last base_parts [])
                  then removelast base_parts else base_parts in
                let segments :=
                  if Py.str_eqb (firstn 1 (path u)) (lit "/")
                  then Py.split "/"%char (path u)
                  else filter_middle (base_parts ++ Py.split "/"%char (path u)) in
                let resolved := Py.join (lit "/") (resolve_segments segments) in
                let resolved :=
                  if Py.truthy resolved then resolved else lit "/" in
                Some (urlunparse (scheme u) netloc resolved (params u)
                                 (query u) (fragment u))
        end
    end.

End WithHostCheck.

End Url.

(** ** The scraper object: configuration fixed by [__init__] *)

Record Scraper := mkScraper {
  base_url : str;
  max_depth : Z;
  base_domain : str }.

Section Normalizer.
Context `{HC : HostCheck}.

(** [WebScraper.__init__]: [base_domain] is [urlparse(base_url).netloc];
    the constructor raises when [urlparse] does. *)
Definition new_scraper (base_url : str) (max_depth : Z) : option Scraper :=
  match Url.urlparse base_url [] with
  | Some parsed => Some (mkScraper base_url max_depth (Url.netloc parsed))
  | None => None
  end.

(** The f-string of [normalize_url] with the optional query appended. *)
Definition clean_url (parsed : Url.ParseResult) : str :=
  let clean := Url.scheme parsed ++ lit "://" ++ Url.netloc parsed
               ++ Url.path parsed in
  if Py.truthy (Url.query parsed)
  then clean ++ lit "?" ++ Url.query parsed else clean.

(** [WebScraper.normalize_url] *)
Definition normalize_url (self : Scraper) (url : str) : option str :=
  match Url.urljoin (base_url self) url with
  | None => None
  | Some url =>
      match Url.urlparse url [] with
      | None => None
      | Some parsed => Some (Py.rstrip_slash (clean_url parsed))
      end
  end.

(** [WebScraper.is_valid_url]: any exception is caught and gives [False]. *)
Definition is_valid_url (self : Scraper) (url : str) : bool :=
  match Url.urlparse url [] with
  | Some parsed =>
      Py.truthy (Url.netloc parsed)
      && Py.str_eqb (Url.netloc parsed) (base_domain self)
  | None => false
  end.

End Normalizer.

(** ** The parsed document (BeautifulSoup tree)

    An element carries its tag name, its attribute dictionary and its
    ordered children.  [Text] is a [NavigableString]; [Special] stands for
    the string subclasses that [get_text] leaves out (comments,
    declarations and the like). *)

Inductive attr_value :=
| AStr (s : str)
| AList (l : list str).

Inductive node :=
| Text (s : str)
| Special (s : str)
| Elem (name : str) (attrs : list (str * attr_value)) (children : list node).

(** A node together with its place in the tree: the child indices from
    the node up to the root (the identity of the object) and the names of
    its ancestors, nearest first (what [find_parent] walks). *)
Record tag := mkTag {
  t_path : list nat;
  t_parents : list str;
  t_node : node }.

Module Soup.

Definition name_of (n : node) : option str :=
  match n with Elem nm _ _ => Some nm | _ => None end.

Definition children_of (n : node) : list node :=
  match n with Elem _ _ cs => cs | _ => [] end.

(** [tag.get(key)] *)
Fixpoint get_attr (key : str) (attrs : list (str * attr_value))
  : option attr_value :=
  match attrs with
  | [] => None
  | (k, v) :: rest => if Py.str_eqb k key then Some v else get_attr key rest
  end.

Definition attr_of (key : str) (n : node) : option attr_value :=
  match n with Elem _ a _ => get_attr key a | _ => None end.

(** [tag.get(key, '')] for a single-valued attribute. *)
Definition attr_str (key : str) (n : node) : str :=
  match attr_of key n with
  | Some (AStr s) => s
  | Some (AList l) => Py.join (lit " ") l
  | None => []
  end.

(** The descendants of a node in document order, each with its place. *)
Fixpoint subtree (p : list nat) (anc : list str) (n : node) : list tag :=
  match n with
  | Elem nm _ cs =>
      (fix kids (i : nat) (cs : list node) : list tag :=
         match cs with
         | [] => []
         | c :: cs' =>
             mkTag (i :: p) (nm :: anc) c
             :: subtree (i :: p) (nm :: anc) c ++ kids (S i) cs'
         end) 0%nat cs
  | _ => []
  end.

Definition descendants (t : tag) : list tag :=
  subtree (t_path t) (t_parents t) (t_node t).

(** The walk over the children [cs] of the node at [p], from the child
    index [i] on; [anc] are the ancestors of these children. *)
Fixpoint forest (p : list nat) (anc : list str) (i : nat) (cs : list node)
  : list tag :=
  match cs with
  | [] => []
  | c :: cs' =>
      mkTag (i :: p) anc c :: subtree (i :: p) anc c ++ forest p anc (S i) cs'
  end.

(** [tag.children], each with its place. *)
Definition children (t : tag) : list tag :=
  match t_node t with
  | Elem nm _ cs =>
      imap (fun i c => mkTag (i :: t_path t) (nm :: t_parents t) c) cs
  | _ => []
  end.

(** The root object returned by the parser. *)
Definition root (n : node) : tag := mkTag [] [] n.

(** Matching of a tag name against a list of names. *)
Definition named (names : list str) (n : node) : bool :=
  match n with
  | Elem nm _ _ => existsb (Py.str_eqb nm) names
  | _ => false
  end.

(** [tag.find_all(test)]: the matching descendants in document order. *)
Definition find_all (test : node -> bool) (t : tag) : list tag :=
  List.filter (fun d => test (t_node d)) (descendants t).

(** [tag.find_all(test, recursive=False)] *)
Definition find_children (test : node -> bool) (t : tag) : list tag :=
  List.filter (fun d => test (t_node d)) (children t).

(** [tag.find(test)]: the first match, or [None]. *)
Definition find (test : node -> bool) (t : tag) : option tag :=
  match find_all test t with
  | [] => None
  | d :: _ => Some d
  end.

(** [tag.find_parent(name)] is not [None]. *)
Definition has_parent (nm : str) (t : tag) : bool :=
  existsb (Py.str_eqb nm) (t_parents t).

(** The strings [get_text] collects, in document order. *)
Fixpoint all_strings (n : node) : list str :=
  match n with
  | Text s => [s]
  | Special _ => []
  | Elem _ _ cs => flat_map all_strings cs
  end.

(** [tag.get_text()] *)
Definition get_text (n : node) : str := concat (all_strings n).

(** [tag.get_text(strip=True)]: every string is stripped and the empty
    ones are dropped. *)
Definition get_text_strip (n : node) : str :=
  concat (List.filter Py.truthy (map Py.strip (all_strings n))).

(** [re.compile(alt1|alt2|..., re.I).search(s)] for literal alternatives:
    some alternative occurs in [s], letter case ignored. *)
Definition re_search_i (alts : list str) (s : str) : bool :=
  existsb (fun alt => Py.contains (Py.lower alt) (Py.lower s)) alts.

(** The attribute test of [find] for a compiled pattern: a multi-valued
    attribute matches through one of its values or through the values
    joined by a space; a missing attribute never matches. *)
Definition attr_matches (alts : list str) (v : option attr_value) : bool :=
  match v with
  | None => false
  | Some (AStr s) => re_search_i alts s
  | Some (AList l) =>
      existsb (re_search_i alts) l || re_search_i alts (Py.join (lit " ") l)
  end.

End Soup.

(** ** Content locator *)

Inductive attr_filter :=
| AnyAttrs
| AttrLike (key : str) (alts : list str).

(** The [selectors] table of [find_content_container]. *)
Definition selectors : list (str * attr_filter) :=
  [ (lit "main", AnyAttrs);
    (lit "article", AnyAttrs);
    (lit "div", AttrLike (lit "class")
       (map lit ["content__default"; "content"; "main-content";
                 "documentation"; "docs-content"]%string));
    (lit "div", AttrLike (lit "id")
       (map lit ["content"; "main"; "documentation"]%string));
    (lit "div", AttrLike (lit "class")
       (map lit ["markdown"; "prose"; "post"]%string)) ].

(** The test [soup.find(tag, attrs)] applies to a node. *)
Definition selects (nm : str) (f : attr_filter) (n : node) : bool :=
  Soup.named [nm] n &&
  match f with
  | AnyAttrs => true
  | AttrLike key alts => Soup.attr_matches alts (Soup.attr_of key n)
  end.

(** The loop over the selectors; a [Tag] is always true in a condition. *)
Fixpoint first_selected (sels : list (str * attr_filter)) (soup : tag)
  : option tag :=
  match sels with
  | [] => None
  | (nm, f) :: rest =>
      match Soup.find (selects nm f) soup with
      | Some element =>
          if Py.str_eqb nm (lit "main") then
            match Soup.find (selects (lit "div")
                               (AttrLike (lit "class") [lit "content"]))
                            element with
            | Some content_div => Some content_div
            | None => Some element
            end
          else Some element
      | None => first_selected rest soup
      end
  end.

(** [WebScraper.find_content_container] *)
Definition find_content_container (soup : tag) : tag :=
  match first_selected selectors soup with
  | Some element => element
  | None =>
      match Soup.find (Soup.named [lit "body"]) soup with
      | Some body => body
      | None => soup
      end
  end.

(** ** Table renderer *)

(** [while len(row) < len(headers): row.append('')] *)
Fixpoint pad_row (fuel : nat) (row : list str) (width : nat) : list str :=
  if (List.length row <? width)%nat then
    match fuel with
    | O => row
    | S f => pad_row f (row ++ [[]]) width
    end
  else row.

Definition md_row (cells : list str) : str :=
  lit "| " ++ Py.join (lit " | ") cells ++ lit " |" ++ [ascii_of_nat 10].

(** The header cells: the [th] elements of the first [thead]. *)
Definition thead_headers (table : tag) : list str :=
  match Soup.find (Soup.named [lit "thead"]) table with
  | Some thead =>
      map (fun th => Soup.get_text_strip (t_node th))
          (Soup.find_all (Soup.named [lit "th"]) thead)
  | None => []
  end.

(** The loop over the rows: the cell texts of every [tr] that has a
    cell. *)
Definition rows_of_tags (trs : list tag) : list (list str) :=
  List.filter (fun cells => match cells with [] => false | _ => true end)
    (map (fun tr =>
            map (fun cell => Soup.get_text_strip (t_node cell))
                (Soup.find_all (Soup.named [lit "td"; lit "th"]) tr))
         trs).

(** The rows of every [tr] below [t]. *)
Definition rows_of (t : tag) : list (list str) :=
  rows_of_tags (Soup.find_all (Soup.named [lit "tr"]) t).

(** The rows collected from the first [tbody], or from the whole table. *)
Definition collected_rows (table : tag) : list (list str) :=
  let tbody :=
    match Soup.find (Soup.named [lit "tbody"]) table with
    | Some tb => tb
    | None => table
    end in
  rows_of tbody.

(** Header row and data rows after the fallback to the first row. *)
Definition table_layout (table : tag) : list str * list (list str) :=
  let headers := thead_headers table in
  let rows := collected_rows table in
  match headers, rows with
  | [], first :: rest => (first, rest)
  | _, _ => (headers, rows)
  end.

(** [WebScraper.table_to_markdown] *)
Definition table_to_markdown (table : tag) : str :=
  let '(headers, rows) := table_layout table in
  match headers with
  | [] => []
  | _ :: _ =>
      let width := List.length headers in
      let md := [ascii_of_nat 10] ++ md_row headers in
      let md := md ++ md_row (repeat (lit "---") width) in
      fold_left
        (fun md row =>
           let row := pad_row width row width in
           md ++ md_row (firstn width row))
        rows md
  end.

(** ** Text cleaning ([re.sub] patterns of the script) *)

Definition nl : ascii := ascii_of_nat 10.

(** [re.sub(r'\s+', ' ', text)]: [prev_ws] tells that the run of
    whitespace being read has already produced its space. *)
Fixpoint collapse_ws (prev_ws : bool) (text : str) : str :=
  match text with
  | [] => []
  | c :: rest =>
      if Py.isspace c
      then if prev_ws then collapse_ws true rest
           else " "%char :: collapse_ws true rest
      else c :: collapse_ws false rest
  end.

(** A string of whitespace only, and a string that starts and ends with
    a character that is not whitespace. *)
Definition blank (s : str) : Prop := Forall (fun c => Py.isspace c = true) s.

Definition solid (s : str) : Prop :=
  (exists c r, s = c :: r /\ Py.isspace c = false)
  /\ (exists r c, s = r ++ [c] /\ Py.isspace c = false).

(** [WebScraper.clean_text] *)
Definition clean_text (text : str) : str :=
  Py.strip (collapse_ws false text).

(** [re.sub(r'^#+\s*', '', text)] *)
Definition drop_hashes (text : str) : str :=
  match text with
  | "#"%char :: _ =>
      Py.drop_while Py.isspace (Py.drop_while (Py.chr_eqb "#"%char) text)
  | _ => text
  end.

(** [WebScraper.clean_heading_text] *)
Definition clean_heading_text (text : str) : str :=
  Py.strip (collapse_ws false (drop_hashes text)).

(** [re.sub(r'\n{4,}', '\n\n\n', md)]: [pending] counts the newlines of
    the run being read. *)
Definition emit_newlines (pending : nat) : str :=
  repeat nl (if (4 <=? pending)%nat then 3%nat else pending).

Fixpoint squeeze_newlines (pending : nat) (md : str) : str :=
  match md with
  | [] => emit_newlines pending
  | c :: rest =>
      if Py.chr_eqb c nl then squeeze_newlines (S pending) rest
      else emit_newlines pending ++ c :: squeeze_newlines 0 rest
  end.

(** [s.split()]: the maximal runs of non-whitespace characters. *)
Fixpoint words_go (cur : str) (s : str) : list str :=
  match s with
  | [] => match cur with [] => [] | _ => [rev cur] end
  | c :: rest =>
      if Py.isspace c
      then match cur with
           | [] => words_go [] rest
           | _ => rev cur :: words_go [] rest
           end
      else words_go (c :: cur) rest
  end.

Definition words (s : str) : list str := words_go [] s.

(** [WebScraper.get_code_language] *)
Definition get_code_language (element : node) : str :=
  let classes :=
    match Soup.attr_of (lit "class") element with
    | Some (AList l) => l
    | Some (AStr s) => words s
    | None => []
    end in
  (fix scan (classes : list str) : str :=
     match classes with
     | [] => lit "php"
     | cls :: rest =>
         if Py.startswith (lit "language-") cls
         then Py.remove_sub (lit "language-") cls
         else if Py.startswith (lit "lang-") cls
         then Py.remove_sub (lit "lang-") cls
         else scan rest
     end) classes.

Section Renderer.
Context `{HC : HostCheck}.

(** One child in [process_inline_elements]; [None] when [urljoin] raises. *)
Definition inline_child (url : str) (child : node) : option str :=
  match child with
  | Text s | Special s => Some s
  | Elem name _ _ =>
      let text := Soup.get_text child in
      if Py.str_eqb name (lit "code") then Some (lit "`" ++ text ++ lit "`")
      else if Py.str_eqb name (lit "a") then
        match Url.urljoin url (Soup.attr_str (lit "href") child) with
        | Some href => Some (lit "[" ++ text ++ lit "](" ++ href ++ lit ")")
        | None => None
        end
      else if Py.str_eqb name (lit "strong") || Py.str_eqb name (lit "b")
      then Some (lit "**" ++ text ++ lit "**")
      else if Py.str_eqb name (lit "em") || Py.str_eqb name (lit "i")
      then Some (lit "*" ++ text ++ lit "*")
      else Some text
  end.

(** [WebScraper.process_inline_elements] *)
Fixpoint inline_children (url : str) (children : list node) : option str :=
  match children with
  | [] => Some []
  | child :: rest =>
      match inline_child url child with
      | None => None
      | Some s =>
          match inline_children url rest with
          | None => None
          | Some r => Some (s ++ r)
          end
      end
  end.

Definition process_inline_elements (element : node) (url : str) : option str :=
  inline_children url (Soup.children_of element).

Definition heading_names : list str :=
  map lit ["h1"; "h2"; "h3"; "h4"; "h5"; "h6"]%string.

(** The tags the block scan asks [find_all] for. *)
Definition block_names : list str :=
  heading_names ++
  map lit ["p"; "pre"; "ul"; "ol"; "table"; "blockquote"; "img"; "svg"]%string.

(** [int(element.name[1])] for a heading name. *)
Definition heading_level (name : str) : nat :=
  match name with
  | _ :: d :: _ => (nat_of_ascii d - 48)%nat
  | _ => 0%nat
  end.

(** The text of one list item line. *)
Definition list_item (ordered : bool) (i : nat) (li : node) : str :=
  let text := clean_text (Soup.get_text li) in
  if ordered then lit "  " ++ Py.str_of_nat i ++ lit ". " ++ text
  else lit "  - " ++ text.

(** The fragment of a [ul] or [ol]: its direct [li] children, numbered
    from 1. *)
Definition list_block (element : tag) : str :=
  let ordered :=
    match Soup.name_of (t_node element) with
    | Some nm => Py.str_eqb nm (lit "ol")
    | None => false
    end in
  let lis := Soup.find_children (Soup.named [lit "li"]) element in
  let items := imap (fun i li => list_item ordered (S i) (t_node li)) lis in
  [nl] ++ Py.join [nl] items ++ [nl].

(** The code element and raw text a [pre] is rendered from. *)
Definition pre_source (element : tag) : node :=
  match Soup.find (Soup.named [lit "code"]) element with
  | Some code => t_node code
  | None => t_node element
  end.

(** The fragment of a [pre]: [f"\n```{lang}\n{code_text}```\n"]. *)
Definition pre_block (element : tag) : str :=
  let src := pre_source element in
  [nl] ++ lit "```" ++ get_code_language src ++ [nl]
  ++ Soup.get_text src ++ lit "```" ++ [nl].

(** The fragments one scanned element appends to [md_parts]; [None] when
    [urljoin] raises. *)
Definition render_block (url : str) (element : tag) : option (list str) :=
  let n := t_node element in
  match Soup.name_of n with
  | None => Some []
  | Some name =>
      if Url.in_list name heading_names then
        let level := heading_level name in
        let text := clean_heading_text (Soup.get_text n) in
        Some [[nl] ++ repeat "#"%char level ++ lit " " ++ text ++ [nl]]
      else if Py.str_eqb name (lit "p") then
        match process_inline_elements n url with
        | None => None
        | Some text =>
            let text := clean_text text in
            if Py.truthy text then Some [[nl] ++ text ++ [nl]] else Some []
        end
      else if Py.str_eqb name (lit "pre") then Some [pre_block element]
      else if Py.str_eqb name (lit "ul") || Py.str_eqb name (lit "ol")
      then Some [list_block element]
      else if Py.str_eqb name (lit "blockquote") then
        let text := clean_text (Soup.get_text n) in
        let lines :=
          map (fun line => lit "> " ++ line)
              (List.filter (fun line => Py.truthy (Py.strip line))
                           (Py.split nl text)) in
        Some [[nl] ++ Py.join [nl] lines ++ [nl]]
      else if Py.str_eqb name (lit "table") then
        let table_md := table_to_markdown element in
        if Py.truthy table_md then Some [table_md] else Some []
      else if Py.str_eqb name (lit "img") then
        match Url.urljoin url (Soup.attr_str (lit "src") n) with
        | None => None
        | Some src =>
            let alt := Soup.attr_str (lit "alt") n in
            Some [[nl] ++ lit "![" ++ alt ++ lit "](" ++ src ++ lit ")" ++ [nl]]
        end
      else if Py.str_eqb name (lit "svg") then
        let svg_title :=
          match Soup.find (Soup.named [lit "title"]) element with
          | Some title_elem => Soup.get_text (t_node title_elem)
          | None => lit "Diagram"
          end in
        Some [[nl] ++ lit "*[SVG Diagram: " ++ svg_title ++ lit "]*" ++ [nl]]
      else Some []
  end.

(** The state of the block scan: the identities already processed and the
    fragments appended so far. *)
Record scan_state := mkScan {
  processed : list (list nat);
  md_parts : list str }.

(** One iteration of the [for element in elements] loop. *)
Definition scan_step (url : str) (st : scan_state) (element : tag)
  : option scan_state :=
  if bool_decide (t_path element ∈ processed st) then Some st
  else if Soup.has_parent (lit "pre") element
          || Soup.has_parent (lit "code") element
  then Some st
  else
    match render_block url element with
    | None => None
    | Some parts =>
        Some (mkScan (t_path element :: processed st) (md_parts st ++ parts))
    end.

Fixpoint scan (url : str) (st : scan_state) (elements : list tag)
  : option scan_state :=
  match elements with
  | [] => Some st
  | element :: rest =>
      match scan_step url st element with
      | None => None
      | Some st' => scan url st' rest
      end
  end.

(** [elem.decompose()] for every script, style, nav, footer, header and
    aside element. *)
Definition unwanted_names : list str :=
  map lit ["script"; "style"; "nav"; "footer"; "header"; "aside"]%string.

Fixpoint prune (n : node) : node :=
  match n with
  | Elem nm a cs =>
      Elem nm a
        ((fix go (cs : list node) : list node :=
            match cs with
            | [] => []
            | c :: cs' =>
                if Soup.named unwanted_names c then go cs'
                else prune c :: go cs'
            end) cs)
  | _ => n
  end.

(** The per-page header: title, URL and optional description. *)
Definition page_header (soup : tag) (url : str) : list str :=
  let title_text :=
    match Soup.find (Soup.named [lit "title"]) soup with
    | Some title => Soup.get_text_strip (t_node title)
    | None => []
    end in
  let description :=
    match Soup.find
            (fun n => Soup.named [lit "meta"] n &&
                      match Soup.attr_of (lit "name") n with
                      | Some (AStr s) => Py.str_eqb s (lit "description")
                      | _ => false
                      end) soup with
    | Some meta_desc => Soup.attr_str (lit "content") (t_node meta_desc)
    | None => []
    end in
  [lit "# " ++ title_text ++ [nl];
   [nl] ++ lit "**URL:** " ++ url ++ [nl]]
  ++ (if Py.truthy description
      then [[nl] ++ lit "**Description:** " ++ description ++ [nl]]
      else [])
  ++ [[nl] ++ lit "---" ++ [nl]].

(** The elements of the block scan, in document order. *)
Definition scan_elements (content : tag) : list tag :=
  Soup.find_all (Soup.named block_names) content.

(** The fragments of [extract_markdown] before they are joined: the
    header followed by what the block scan appends.  [document] is the
    tree the parser returned. *)
Definition extract_parts (document : node) (url : str) : option (list str) :=
  let soup := Soup.root (prune document) in
  let content := find_content_container soup in
  match scan url (mkScan [] (page_header soup url)) (scan_elements content) with
  | None => None
  | Some st => Some (md_parts st)
  end.

(** [WebScraper.extract_markdown], from the parsed document on. *)
Definition extract_markdown (document : node) (url : str) : option str :=
  match extract_parts document url with
  | None => None
  | Some parts => Some (squeeze_newlines 0 (concat parts))
  end.

End Renderer.

(** ** Collaborators of the crawl

    The HTTP client, the HTML parser and the iteration order of a Python
    [set] are outside the script.  [http_get] answers a request from the
    URL and the requests issued before it ([None] is any
    [RequestException]: network error, timeout or a status that
    [raise_for_status] rejects); [set_list] is [list(set(links))], some
    duplicate-free enumeration of the same elements. *)

Record World := mkWorld {
  http_get : list str -> str -> option str;
  parse_html : str -> node;
  set_list : list str -> list str;
  set_list_nodup : forall l, NoDup (set_list l);
  set_list_elem : forall l x, x ∈ set_list l <-> x ∈ l }.

(** ** Crawl traversal *)

(** What the traversal did, in order: every call of [scrape] with its
    arguments, and every request handed to [fetch_page] together with the
    visited set at that moment. *)
Inductive event :=
| Called (url : str) (depth : Z)
| Fetched (url : str) (depth : Z) (visited : gset str).

(** The mutable fields of the scraper object, with the history kept
    beside them. *)
Record crawl_state := mkCrawl {
  visited_urls : gset str;
  results : list str;
  history : list event }.

Inductive outcome :=
| Returned
| Raised
| OutOfFuel.

Definition fetched_url (e : event) : option str :=
  match e with Fetched u _ _ => Some u | Called _ _ => None end.

(** The URLs requested so far, oldest first. *)
Definition fetched_urls (h : list event) : list str := omap fetched_url h.

Definition record_event (e : event) (st : crawl_state) : crawl_state :=
  mkCrawl (visited_urls st) (results st) (history st ++ [e]).

(** [self.visited_urls.add(url)] followed by the request for [url]. *)
Definition requested (url : str) (depth : Z) (st : crawl_state)
  : crawl_state :=
  mkCrawl ({[url]} ∪ visited_urls st) (results st)
          (history st ++ [Fetched url depth ({[url]} ∪ visited_urls st)]).

(** [self.results.append(md)] *)
Definition appended (md : str) (st : crawl_state) : crawl_state :=
  mkCrawl (visited_urls st) (results st ++ [md]) (history st).

(** The state of a freshly constructed scraper. *)
Definition initial_state : crawl_state := mkCrawl ∅ [] [].

Section Crawl.
Context `{HC : HostCheck}.
Variable W : World.
Variable self : Scraper.

(** The anchors [soup.find_all('a', href=True)] returns. *)
Definition is_link (n : node) : bool :=
  Soup.named [lit "a"] n &&
  match Soup.attr_of (lit "href") n with Some _ => true | None => false end.

(** The loop of [get_internal_links] over the anchors; [None] when
    [urljoin] or [normalize_url] raises. *)
Fixpoint collect_links (url : str) (visited : gset str)
    (anchors : list tag) (links : list str) : option (list str) :=
  match anchors with
  | [] => Some links
  | a :: rest =>
      match Url.urljoin url (Soup.attr_str (lit "href") (t_node a)) with
      | None => None
      | Some href =>
          match normalize_url self href with
          | None => None
          | Some normalized =>
              if is_valid_url self normalized
                 && negb (bool_decide (normalized ∈ visited))
              then collect_links url visited rest (links ++ [normalized])
              else collect_links url visited rest links
          end
      end
  end.

(** [WebScraper.get_internal_links] *)
Definition get_internal_links (html url : str) (visited : gset str)
  : option (list str) :=
  let soup := Soup.root (parse_html W html) in
  match collect_links url visited (Soup.find_all is_link soup) [] with
  | None => None
  | Some links => Some (set_list W links)
  end.

(** [if url is None: url = self.base_url] *)
Definition seed (url : option str) : str :=
  match url with Some u => u | None => base_url self end.

(** [WebScraper.scrape].  [url = None] is the default argument.  The
    recursion is bounded by [fuel], spent on the recursive calls only;
    [time.sleep] changes no field and is left out. *)
Fixpoint scrape (fuel : nat) (url : option str) (depth : Z)
    (st : crawl_state) : outcome * crawl_state :=
  let url := seed url in
  let st := record_event (Called url depth) st in
  match normalize_url self url with
  | None => (Raised, st)
  | Some url =>
      if bool_decide (url ∈ visited_urls st) || (max_depth self <? depth)%Z
      then (Returned, st)
      else
        let html := http_get W (fetched_urls (history st)) url in
        let st := requested url depth st in
        match html with
        | None => (Returned, st)
        | Some html =>
            match extract_markdown (parse_html W html) url with
            | None => (Raised, st)
            | Some md =>
                let st := appended md st in
                if (depth <? max_depth self)%Z then
                  match get_internal_links html url (visited_urls st) with
                  | None => (Raised, st)
                  | Some internal_links =>
                      match fuel with
                      | O => (OutOfFuel, st)
                      | S fuel' =>
                          (fix visit (links : list str) (st : crawl_state)
                             : outcome * crawl_state :=
                             match links with
                             | [] => (Returned, st)
                             | link :: rest =>
                                 match scrape fuel' (Some link)
                                              (depth + 1)%Z st with
                                 | (Returned, st') => visit rest st'
                                 | stopped => stopped
                                 end
                             end) internal_links st
                      end
                  end
                else (Returned, st)
            end
        end
  end.

(** The [for link in internal_links] loop on its own. *)
Fixpoint visit_links (fuel : nat) (depth : Z) (links : list str)
    (st : crawl_state) : outcome * crawl_state :=
  match links with
  | [] => (Returned, st)
  | link :: rest =>
      match scrape fuel (Some link) (depth + 1)%Z st with
      | (Returned, st') => visit_links fuel depth rest st'
      | stopped => stopped
      end
  end.

(** The part of [scrape] that follows a successful request: extraction,
    the append to [results] and the expansion of the links. *)
Definition scrape_page (fuel : nat) (depth : Z) (url html : str)
    (st : crawl_state) : outcome * crawl_state :=
  match extract_markdown (parse_html W html) url with
  | None => (Raised, st)
  | Some md =>
      let st := appended md st in
      if (depth <? max_depth self)%Z then
        match get_internal_links html url (visited_urls st) with
        | None => (Raised, st)
        | Some internal_links =>
            match fuel with
            | O => (OutOfFuel, st)
            | S fuel' => visit_links fuel' depth internal_links st
            end
        end
      else (Returned, st)
  end.

(** Fuel that covers every level a call at [depth] can still recurse to. *)
Definition depth_budget (depth : Z) : nat := Z.to_nat (max_depth self - depth).

(** A whole run: [scraper.scrape()] on a fresh scraper. *)
Definition run : outcome * crawl_state :=
  scrape (depth_budget 0) None 0%Z initial_state.

End Crawl.

(** ** The traversal as a transition system

    The three ways in which [scrape] changes the scraper object: a call
    is entered, a URL not yet visited is marked and requested, a page
    document is appended. *)

Inductive crawl_step : relation crawl_state :=
| step_called u d st :
    crawl_step st (record_event (Called u d) st)
| step_fetched u d st :
    u ∉ visited_urls st ->
    crawl_step st (requested u d st)
| step_appended md st :
    crawl_step st (appended md st).

(** Every request was preceded by the insertion of its URL, no URL was
    requested twice, and what was requested is still marked visited. *)
Record crawl_inv (st : crawl_state) : Prop := mkInv {
  inv_added_first :
    forall u d vs, Fetched u d vs ∈ history st -> u ∈ vs;
  inv_fetched_once : NoDup (fetched_urls (history st));
  inv_fetched_visited :
    forall u, u ∈ fetched_urls (history st) -> u ∈ visited_urls st }.

(** The depth recorded by an event. *)
Definition event_depth (e : event) : Z :=
  match e with Called _ d => d | Fetched _ d _ => d end.

(** What a call of [scrape] at depth [depth] may add to the history
    after its own [Called] event: requests at depths [depth..max_depth]
    and further calls at depths [depth+1..max_depth]. *)
Definition below (self : Scraper) (depth : Z) (e : event) : Prop :=
  match e with
  | Called _ d => (depth < d <= max_depth self)%Z
  | Fetched _ d _ => (depth <= d <= max_depth self)%Z
  end.

(** ** Concrete collaborators for the worked examples *)

(** A host check that accepts no bracketed host; the examples below use
    no brackets, so they do not depend on it. *)
Definition no_bracketed_hosts : HostCheck := fun _ => false.

(** A set enumerated in order of first insertion. *)
Definition insertion_order (l : list str) : list str := remove_dups l.

(** A site given as a table from URL to page body; unknown URLs fail. *)
Definition table_get (site : list (str * str)) (requested : list str)
    (url : str) : option str :=
  snd <$> List.find (fun p => Py.str_eqb (fst p) url) site.

Definition table_world (site : list (str * str)) (parse : str -> node)
  : World :=
  mkWorld (table_get site) parse insertion_order
          NoDup_remove_dups (fun l x => elem_of_remove_dups l x).

(** A parser stub for the examples: every body is an empty document. *)
Definition empty_document (html : str) : node := Elem (lit "[document]") [] [].

Definition example_scraper : Scraper :=
  mkScraper (lit "http://h/a") 1 (lit "h").

Definition example_world : World :=
  table_world [(lit "http://h/a", lit "<html></html>")] empty_document.

(** A world in which every request fails. *)
Definition offline_world : World := table_world [] empty_document.

(** ** Statements taken from the specification

    The definitions of this part follow the wording of the specification
    and are compared with the code above. *)

(** The content root by priority: a [main] (its first content-classed
    [div] if it has one), else an [article], else a [div] by content
    class, by id, by prose class, else the body, else the document. *)
Definition locate_by_priority (soup : tag) : tag :=
  let div_by key alts :=
    Soup.find (selects (lit "div") (AttrLike key (map lit alts))) soup in
  match Soup.find (Soup.named [lit "main"]) soup with
  | Some main =>
      match Soup.find (fun n => Soup.named [lit "div"] n &&
                         Soup.attr_matches [lit "content"]
                           (Soup.attr_of (lit "class") n)) main with
      | Some content_div => content_div
      | None => main
      end
  | None =>
  match Soup.find (Soup.named [lit "article"]) soup with
  | Some article => article
  | None =>
  match div_by (lit "class")
          ["content__default"; "content"; "main-content"; "documentation";
           "docs-content"]%string with
  | Some d => d
  | None =>
  match div_by (lit "id") ["content"; "main"; "documentation"]%string with
  | Some d => d
  | None =>
  match div_by (lit "class") ["markdown"; "prose"; "post"]%string with
  | Some d => d
  | None =>
  match Soup.find (Soup.named [lit "body"]) soup with
  | Some body => body
  | None => soup
  end end end end end end.

(** A data row brought to the width of the header: padded with empty
    cells when shorter, cut when longer. *)
Definition fit_row (width : nat) (row : list str) : list str :=
  firstn width (row ++ repeat [] (width - List.length row)).

(** The cells of the header section, when the table has one. *)
Definition thead_cells (table : tag) : option (list str) :=
  match Soup.find (Soup.named [lit "thead"]) table with
  | Some thead =>
      Some (map (fun cell => Soup.get_text_strip (t_node cell))
                (Soup.find_all (Soup.named [lit "td"; lit "th"]) thead))
  | None => None
  end.

(** What a fenced block puts in front of its closing fence. *)
Definition before_closing_fence (element : tag) : str :=
  let src := pre_source element in
  [nl] ++ lit "```" ++ get_code_language src ++ [nl] ++ Soup.get_text src.

Definition ends_with_newline (s : str) : Prop := last s = Some nl.

(** ** Documents for the worked examples *)

Definition el (name : string) (children : list node) : node :=
  Elem (lit name) [] children.

Definition txt (s : string) : node := Text (lit s).

Definition docs_scraper : Scraper :=
  mkScraper (lit "https://example.com/docs") 0 (lit "example.com").

(** [<table><thead><tr><th>A</th><th>B</th></tr></thead>
    <tbody><tr><td>1</td><td>2</td></tr><tr><td>3</td></tr></tbody></table>] *)
Definition table_ab : tag :=
  Soup.root
    (el "table"
       [el "thead" [el "tr" [el "th" [txt "A"]; el "th" [txt "B"]]];
        el "tbody" [el "tr" [el "td" [txt "1"]; el "td" [txt "2"]];
                    el "tr" [el "td" [txt "3"]]]]).

(** A header section whose cells are [td] elements. *)
Definition table_td_head : tag :=
  Soup.root
    (el "table"
       [el "thead" [el "tr" [el "td" [txt "H"]]];
        el "tbody" [el "tr" [el "td" [txt "1"]]]]).



(** [<pre></pre>] and [<pre><code>x = 1\n</code></pre>] *)
Definition pre_empty : tag := Soup.root (el "pre" []).

Definition pre_with_newline : tag :=
  Soup.root (el "pre" [el "code" [Text (lit "x = 1" ++ [nl])]]).

(** A page whose body holds a list with a nested list. *)
Definition nested_list_page : node :=
  el "[document]"
    [el "html"
       [el "body"
          [el "ul"
             [el "li" [txt "fruit "; el "ul" [el "li" [txt "apple"]]]]]]].

(** ** Result file *)

(** The marker written between two page documents. *)
Definition page_break : str :=
  [nl; nl] ++ lit "---" ++ [nl; nl] ++ lit "## Next Page" ++ [nl; nl].

(** The loop of [save_results]: [file] is what has been written, [i] the
    index of [enumerate], [total] is [len(self.results)]. *)
Fixpoint write_pages (total : Z) (i : Z) (results : list str) (file : str)
  : str :=
  match results with
  | [] => file
  | md :: rest =>
      let file := file ++ md in
      let file := if (i <? total - 1)%Z then file ++ page_break else file in
      write_pages total (i + 1)%Z rest file
  end.

(** [WebScraper.save_results]: the text written to the output file. *)
Definition save_results (results : list str) : str :=
  write_pages (Z.of_nat (List.length results)) 0 results [].

(** ** Predicates of the further properties *)

(** A run of four newlines, the shortest one the cleanup of
    [extract_markdown] rewrites. *)
Definition four_newlines : str := repeat nl 4.

Definition not_newline (c : ascii) : bool := negb (Py.chr_eqb c nl).

(** A class that [get_code_language] passes over. *)
Definition no_language_prefix (cls : str) : Prop :=
  Py.startswith (lit "language-") cls = false
  /\ Py.startswith (lit "lang-") cls = false.

(** An anchor whose [href] cannot be joined to the page URL. *)
Definition bad_anchor `{HC : HostCheck} (url : str) (child : node) : Prop :=
  Soup.named [lit "a"] child = true
  /\ Url.urljoin url (Soup.attr_str (lit "href") child) = None.

(** An element the block scan renders: one outside [pre] and [code]. *)
Definition outside_code (element : tag) : bool :=
  negb (Soup.has_parent (lit "pre") element
        || Soup.has_parent (lit "code") element).

(** A character that a normalized URL may hold: not the fragment marker
    and none of the bytes [urlsplit] removes. *)
Definition plain_chr (c : ascii) : bool :=
  negb (Py.chr_eqb c "#"%char) && negb (Py.mem c Url.unsafe_bytes).

(** The effect of a call on the three mutable fields: the requests it
    issued, and the page documents it appended. *)
Definition accounted (st st' : crawl_state) : Prop :=
  exists new pages,
    fetched_urls (history st') = fetched_urls (history st) ++ new
    /\ visited_urls st' = visited_urls st ∪ list_to_set new
    /\ results st' = results st ++ pages
    /\ (length pages <= length new)%nat.



(** ** Further example inputs *)

(** [<code class="hljs language-js"></code>] *)
Definition code_js : node :=
  Elem (lit "code") [(lit "class", AList [lit "hljs"; lit "language-js"])] [].

(** [<blockquote>Be  kind</blockquote>] *)
Definition quote_kind : tag := Soup.root (el "blockquote" [txt "Be  kind"]).

(** [<h2># Routing</h2>] *)
Definition heading_routing : tag := Soup.root (el "h2" [txt "# Routing"]).

(** A page with two anchors to the same page of the site and one to
    another site. *)
Definition linked_page : node :=
  el "[document]"
    [el "html"
       [el "body"
          [Elem (lit "a") [(lit "href", AStr (lit "/b/"))] [txt "b"];
           Elem (lit "a") [(lit "href", AStr (lit "b#top"))] [txt "again"];
           Elem (lit "a") [(lit "href", AStr (lit "http://other/c"))]
                [txt "c"]]]].

Definition linked_world : World :=
  table_world [(lit "http://h/a", lit "<html></html>")] (fun _ => linked_page).

(** A scraper built from a base URL without [//host]. *)
Definition relative_scraper : Scraper := mkScraper (lit "docs/index") 1 [].

(** * Properties of URL normalisation *)

(** A trailing slash is removed by [rstrip('/')], however many follow. *)
Lemma rstrip_slash_snoc s :
  Py.rstrip_slash (s ++ lit "/") = Py.rstrip_slash s.
Proof.
  unfold Py.rstrip_slash, Py.rstrip_by. rewrite rev_app_distr. reflexivity.
Qed.

(** The fragment and the parameters of the resolved URL play no part in
    the normal form. *)
Lemma clean_url_ignores_fragment sc nl pa pr q fr pr' fr' :
  clean_url (Url.mkParse sc nl pa pr q fr)
  = clean_url (Url.mkParse sc nl pa pr' q fr').
Proof. reflexivity. Qed.

(** Without a query, a trailing slash of the path is dropped. *)
Lemma clean_url_trailing_slash sc nl pa pr fr :
  Py.rstrip_slash (clean_url (Url.mkParse sc nl (pa ++ lit "/") pr [] fr))
  = Py.rstrip_slash (clean_url (Url.mkParse sc nl pa pr [] fr)).
Proof.
  unfold clean_url. cbn [Url.query Url.scheme Url.netloc Url.path Py.truthy].
  rewrite !app_assoc. apply rstrip_slash_snoc.
Qed.

(** C3 (normalisation contract), evaluated at the failing inputs: with a
    query present the trailing slash of the path is kept, so two URLs
    that differ only by that slash keep different normal forms, while a
    slash that ends the query is taken off the query. *)
Theorem trailing_slash_kept_before_query :
  normalize_url (HC := no_bracketed_hosts) docs_scraper
    (lit "https://example.com/docs/?page=2")
  = Some (lit "https://example.com/docs/?page=2")
  /\ normalize_url (HC := no_bracketed_hosts) docs_scraper
       (lit "https://example.com/docs?page=2")
     = Some (lit "https://example.com/docs?page=2")
  /\ normalize_url (HC := no_bracketed_hosts) docs_scraper
       (lit "https://example.com/docs?q=a/")
     = Some (lit "https://example.com/docs?q=a").
Proof. repeat split; vm_compute; reflexivity. Qed.

(** C4 (idempotence), evaluated at the failing inputs: a query made of a
    slash leaves a dangling [?] that the second pass removes, and a
    stripped slash can expose path parameters that the second pass
    removes. *)
Theorem normalize_twice_differs :
  normalize_url (HC := no_bracketed_hosts) docs_scraper
    (lit "https://example.com/docs?/")
  = Some (lit "https://example.com/docs?")
  /\ normalize_url (HC := no_bracketed_hosts) docs_scraper
       (lit "https://example.com/docs?")
     = Some (lit "https://example.com/docs")
  /\ normalize_url (HC := no_bracketed_hosts) docs_scraper
       (lit "https://example.com/a;x/")
     = Some (lit "https://example.com/a;x")
  /\ normalize_url (HC := no_bracketed_hosts) docs_scraper
       (lit "https://example.com/a;x")
     = Some (lit "https://example.com/a").
Proof. repeat split; vm_compute; reflexivity. Qed.

(** * Properties of the document tree *)

Lemma node_induction (P : node -> Prop) :
  (forall s, P (Text s)) ->
  (forall s, P (Special s)) ->
  (forall nm a cs, Forall P cs -> P (Elem nm a cs)) ->
  forall n, P n.
Proof.
  intros HT HS HE. fix IH 1. intros [s|s|nm a cs].
  - apply HT.
  - apply HS.
  - apply HE. induction cs as [|c cs IHcs]; constructor;
      [apply IH | exact IHcs].
Qed.

Lemma subtree_elem p anc nm a cs :
  Soup.subtree p anc (Elem nm a cs) = Soup.forest p (nm :: anc) 0 cs.
Proof.
  cbn [Soup.subtree]. generalize 0%nat.
  induction cs as [|c cs IH]; intros i; [reflexivity|].
  cbn [Soup.forest]. f_equal. f_equal. apply IH.
Qed.

Lemma filter_head {A} (f : A -> bool) l d r :
  List.filter f l = d :: r ->
  exists pre post, l = pre ++ d :: post
    /\ Forall (fun x => f x = false) pre /\ f d = true
    /\ r = List.filter f post.
Proof.
  induction l as [|x l IH]; cbn; [discriminate|].
  destruct (f x) eqn:Hx.
  - intros [= -> <-]. exists [], l. repeat split; [constructor | exact Hx].
  - intros H. destruct (IH H) as (pre & post & -> & Hp & Hd & Hr).
    exists (x :: pre), post. repeat split; try assumption.
    constructor; assumption.
Qed.

(** In document order a node is followed at once by its descendants. *)
Lemma subtree_split n : forall p anc pre d post,
  Soup.subtree p anc n = pre ++ d :: post ->
  exists post', post = Soup.descendants d ++ post'.
Proof.
  induction n as [s|s|nm a cs IHcs] using node_induction;
    intros p anc pre d post.
  - cbn. intros H. destruct pre; discriminate.
  - cbn. intros H. destruct pre; discriminate.
  - rewrite subtree_elem. generalize 0%nat. generalize (nm :: anc) as anc'.
    intros anc'. revert pre.
    induction IHcs as [|c cs Hc _ IH]; intros pre i; cbn [Soup.forest].
    + intros H. destruct pre; discriminate.
    + destruct pre as [|x pre].
      * cbn. intros [= <- <-]. eexists. reflexivity.
      * cbn. intros [= <- H].
        apply app_eq_app in H as [l [[H1 H2]|[H1 H2]]].
        -- destruct l as [|d' l].
           ++ cbn in H2. rewrite app_nil_r in H1.
              apply (IH [] (S i)). cbn. symmetry. exact H2.
           ++ cbn in H2. injection H2 as <- ->.
              destruct (Hc _ _ _ _ _ H1) as [post' ->].
              eexists. rewrite <- app_assoc. reflexivity.
        -- apply (IH l (S i)). exact H2.
Qed.

Lemma descendants_split t d :
  d ∈ Soup.descendants t ->
  exists pre post, Soup.descendants t = pre ++ d :: Soup.descendants d ++ post.
Proof.
  intros H. apply list_elem_of_split in H as (pre & post & H).
  destruct (subtree_split _ _ _ _ _ _ H) as [post' ->].
  exists pre, post'. exact H.
Qed.

Lemma descendants_trans t d e :
  d ∈ Soup.descendants t -> e ∈ Soup.descendants d -> e ∈ Soup.descendants t.
Proof.
  intros Hd He. destruct (descendants_split t d Hd) as (pre & post & ->).
  apply elem_of_app. right. apply elem_of_cons. right.
  apply elem_of_app. left. exact He.
Qed.


Lemma find_split test t d :
  Soup.find test t = Some d ->
  exists pre post,
    Soup.descendants t = pre ++ d :: Soup.descendants d ++ post
    /\ Forall (fun x => test (t_node x) = false) pre
    /\ test (t_node d) = true.
Proof.
  unfold Soup.find, Soup.find_all.
  destruct (List.filter _ _) as [|d' r] eqn:Hf; [discriminate|].
  intros [= ->].
  apply filter_head in Hf as (pre & post & H & Hp & Hd & _).
  destruct (subtree_split _ _ _ _ _ _ H) as [post' ->].
  exists pre, post'. repeat split; assumption.
Qed.

Lemma find_elem test t d :
  Soup.find test t = Some d ->
  d ∈ Soup.descendants t /\ test (t_node d) = true.
Proof.
  intros H. destruct (find_split _ _ _ H) as (pre & post & -> & _ & Hd).
  split; [|exact Hd]. apply elem_of_app. right. apply elem_of_cons. left.
  reflexivity.
Qed.



(** Every path below [p] extends [p], and the paths are pairwise
    different: the nodes of a walk are distinct objects. *)
Lemma subtree_paths n : forall p anc,
  (forall d, d ∈ Soup.subtree p anc n ->
             exists q, q <> [] /\ t_path d = q ++ p)
  /\ NoDup (map t_path (Soup.subtree p anc n)).
Proof.
  induction n as [s|s|nm a cs IHcs] using node_induction; intros p anc.
  - cbn. split; [intros d H; inversion H | constructor].
  - cbn. split; [intros d H; inversion H | constructor].
  - rewrite subtree_elem. generalize 0%nat. generalize (nm :: anc) as anc'.
    intros anc'.
    assert (Hgen : forall i,
      (forall d, d ∈ Soup.forest p anc' i cs ->
         exists q j, (i <= j)%nat /\ t_path d = q ++ j :: p)
      /\ NoDup (map t_path (Soup.forest p anc' i cs))).
    { induction IHcs as [|c cs Hc _ IH]; intros i; cbn [Soup.forest].
      - split; [intros d H; inversion H | constructor].
      - destruct (Hc (i :: p) anc') as [Hc1 Hc2].
        destruct (IH (S i)) as [IH1 IH2].
        split.
        + intros d H. apply elem_of_cons in H as [->|H].
          * exists [], i. split; [lia | reflexivity].
          * apply elem_of_app in H as [H|H].
            -- destruct (Hc1 _ H) as (q & _ & ->).
               exists q, i. split; [lia | reflexivity].
            -- destruct (IH1 _ H) as (q & j & Hj & ->).
               exists q, j. split; [lia | reflexivity].
        + cbn [map t_path]. rewrite map_app. apply NoDup_cons. split.
          * intros H. apply elem_of_app in H as [H|H];
              apply list_elem_of_fmap in H as (d & Hp & Hd).
            -- destruct (Hc1 _ Hd) as (q & Hq & Hq').
               rewrite Hq' in Hp. apply (f_equal List.length) in Hp.
               rewrite length_app in Hp. destruct q; [congruence|].
               cbn in Hp. lia.
            -- destruct (IH1 _ Hd) as (q & j & Hj & Hq').
               rewrite Hq' in Hp. destruct q as [|x q].
               ++ cbn in Hp. injection Hp as Hp. lia.
               ++ apply (f_equal List.length) in Hp.
                  rewrite length_app in Hp. cbn in Hp. lia.
          * apply NoDup_app. split; [exact Hc2|]. split; [|exact IH2].
            intros x Hx Hx'.
            apply list_elem_of_fmap in Hx as (d & -> & Hd).
            apply list_elem_of_fmap in Hx' as (d' & Hp & Hd').
            destruct (Hc1 _ Hd) as (q & _ & Hq).
            destruct (IH1 _ Hd') as (q' & j & Hj & Hq').
            rewrite Hq, Hq' in Hp.
            change (q ++ i :: p) with (q ++ [i] ++ p) in Hp.
            change (q' ++ j :: p) with (q' ++ [j] ++ p) in Hp.
            rewrite !app_assoc in Hp. apply app_inv_tail in Hp.
            apply app_inj_tail in Hp as [_ Hp]. lia. }
    intros i. destruct (Hgen i) as [H1 H2]. split; [|exact H2].
    intros d Hd. destruct (H1 _ Hd) as (q & j & _ & ->).
    exists (q ++ [j]). split; [destruct q; discriminate|].
    rewrite <- app_assoc. reflexivity.
Qed.

Lemma descendants_nodup t : NoDup (map t_path (Soup.descendants t)).
Proof. apply subtree_paths. Qed.






Lemma find_ext f g t :
  (forall n, f n = g n) -> Soup.find f t = Soup.find g t.
Proof.
  intros H. unfold Soup.find, Soup.find_all.
  rewrite (filter_ext _ (fun d => g (t_node d))) by (intros d; apply H).
  reflexivity.
Qed.

(** * Content locator *)

(** C5 (content locator).  The loop over the selector table is the
    priority cascade of the specification: the first [main] (replaced by
    its first [div] with a content class when it has one), else the
    first [article], else the first [div] by content class, by id, by
    prose class, each taken as the first match in document order, else
    the body, else the document itself.  The result is always a node of
    the document: the document root or one of its descendants. *)
Theorem content_root_by_priority soup :
  find_content_container soup = locate_by_priority soup
  /\ (find_content_container soup = soup
      \/ find_content_container soup ∈ Soup.descendants soup).
Proof.
  assert (Heq : find_content_container soup = locate_by_priority soup).
  { unfold find_content_container, locate_by_priority, selectors.
    cbn [first_selected].
    rewrite (find_ext (selects (lit "main") AnyAttrs)
               (Soup.named [lit "main"]))
      by (intros n; unfold selects; apply andb_true_r).
    rewrite (find_ext (selects (lit "article") AnyAttrs)
               (Soup.named [lit "article"]))
      by (intros n; unfold selects; apply andb_true_r).
    destruct (Soup.find (Soup.named [lit "main"]) soup) as [m|].
    { change (Py.str_eqb (lit "main") (lit "main")) with true. cbv iota.
      change (selects (lit "div") (AttrLike (lit "class") [lit "content"]))
        with (fun n => Soup.named [lit "div"] n &&
                       Soup.attr_matches [lit "content"]
                         (Soup.attr_of (lit "class") n)).
      destruct (Soup.find _ m); reflexivity. }
    destruct (Soup.find (Soup.named [lit "article"]) soup) as [ar|];
      [reflexivity|].
    repeat (match goal with
            | |- context [Soup.find ?f soup] =>
                destruct (Soup.find f soup); [reflexivity|]
            end).
    reflexivity. }
  split; [exact Heq|]. rewrite Heq. unfold locate_by_priority.
  repeat match goal with
         | |- context [Soup.find ?f ?t] =>
             let H := fresh "H" in
             destruct (Soup.find f t) as [?|] eqn:H;
             [apply find_elem in H as [H _]|]
         end;
    try (right; assumption); try (left; reflexivity).
  right. eapply descendants_trans; eassumption.
Qed.

(** * Table renderer *)

(** The padding loop appends empty cells up to the width. *)
Lemma pad_row_eq width : forall fuel row,
  (width - List.length row <= fuel)%nat ->
  pad_row fuel row width = row ++ repeat [] (width - List.length row).
Proof.
  induction fuel as [|fuel IH]; intros row Hf; cbn [pad_row].
  - destruct (List.length row <? width)%nat eqn:Hlt.
    + apply Nat.ltb_lt in Hlt. lia.
    + apply Nat.ltb_ge in Hlt.
      replace (width - List.length row)%nat with 0%nat by lia.
      symmetry. apply app_nil_r.
  - destruct (List.length row <? width)%nat eqn:Hlt.
    + apply Nat.ltb_lt in Hlt. rewrite IH by (rewrite length_app; cbn; lia).
      rewrite length_app. cbn [List.length].
      replace (width - List.length row)%nat
        with (S (width - (List.length row + 1)))%nat by lia.
      cbn [repeat]. rewrite <- app_assoc. reflexivity.
    + apply Nat.ltb_ge in Hlt.
      replace (width - List.length row)%nat with 0%nat by lia.
      symmetry. apply app_nil_r.
Qed.

Lemma fit_row_eq width row :
  firstn width (pad_row width row width) = fit_row width row.
Proof. unfold fit_row. rewrite pad_row_eq by lia. reflexivity. Qed.

Lemma fit_row_length width row : List.length (fit_row width row) = width.
Proof.
  unfold fit_row. rewrite length_firstn, length_app, repeat_length. lia.
Qed.


Lemma render_rows width rows : forall md,
  fold_left (fun md row =>
               md ++ md_row (firstn width (pad_row width row width)))
            rows md
  = md ++ concat (map (fun row => md_row (fit_row width row)) rows).
Proof.
  induction rows as [|row rows IH]; intros md; cbn [fold_left map concat].
  - symmetry. apply app_nil_r.
  - rewrite IH, fit_row_eq, <- app_assoc. reflexivity.
Qed.

(** The output of [table_to_markdown] in terms of the layout. *)
Lemma table_to_markdown_eq table :
  table_to_markdown table =
  match (table_layout table).1 with
  | [] => []
  | _ :: _ =>
      let headers := (table_layout table).1 in
      [nl] ++ md_row headers
      ++ md_row (repeat (lit "---") (List.length headers))
      ++ concat (map (fun row => md_row (fit_row (List.length headers) row))
                     (table_layout table).2)
  end.
Proof.
  unfold table_to_markdown. destruct (table_layout table) as [headers rows].
  cbn [fst snd]. destruct headers as [|h hs]; [reflexivity|].
  cbv zeta. rewrite render_rows, <- !app_assoc. reflexivity.
Qed.

(** C6, the statement as written, fails for a header section whose cells
    are [td] elements: the section has the cell [H], yet the header row
    is taken from the first body row. *)
Lemma thead_cells_not_header :
  thead_cells table_td_head = Some [lit "H"]
  /\ (table_layout table_td_head).1 = [lit "1"]
  /\ (table_layout table_td_head).1 <> [lit "H"]
  /\ table_to_markdown table_td_head
     = [nl] ++ lit "| 1 |" ++ [nl] ++ lit "| --- |" ++ [nl].
Proof.
  split; [vm_compute; reflexivity|]. split; [vm_compute; reflexivity|].
  split; [vm_compute; discriminate | vm_compute; reflexivity].
Qed.

(** C6 (table layout), amended.  The header row is made of the [th]
    cells of the header section when there are any; otherwise (no header
    section, or none of its cells is a [th]) the first collected row is
    the header and is left out of the data rows.  Without a header
    nothing is emitted; with one, the output is the header row, one
    [---] per column, and every data row padded with empty cells or cut
    to the width of the header.  The table with header [A, B] and body
    rows [1, 2] and [3] gives two columns, the short row padded with one
    empty cell. *)
Theorem table_layout_and_rendering table :
  let headers := (table_layout table).1 in
  let data := (table_layout table).2 in
  match thead_headers table with
  | _ :: _ => headers = thead_headers table /\ data = collected_rows table
  | [] =>
      match collected_rows table with
      | first :: rest => headers = first /\ data = rest
      | [] => headers = [] /\ data = []
      end
  end
  /\ table_to_markdown table
     = match headers with
       | [] => []
       | _ :: _ =>
           [nl] ++ md_row headers
           ++ md_row (repeat (lit "---") (List.length headers))
           ++ concat (map (fun row =>
                             md_row (fit_row (List.length headers) row)) data)
       end
  /\ Forall (fun row =>
               List.length (fit_row (List.length headers) row)
               = List.length headers) data
  /\ table_to_markdown table_ab
     = [nl] ++ lit "| A | B |" ++ [nl] ++ lit "| --- | --- |" ++ [nl]
       ++ lit "| 1 | 2 |" ++ [nl] ++ lit "| 3 |  |" ++ [nl]
  /\ fit_row 2 [lit "3"] = [lit "3"; []].
Proof.
  cbv zeta. split; [|split; [|split; [|split]]].
  - unfold table_layout.
    destruct (thead_headers table) as [|h hs];
      [destruct (collected_rows table)|]; cbn; split; reflexivity.
  - apply table_to_markdown_eq.
  - apply Forall_forall. intros row _. apply fit_row_length.
  - vm_compute. reflexivity.
  - reflexivity.
Qed.

(** *** A header section without [tbody] *)











(** * Text cleaning *)

Lemma drop_while_blank s : blank s -> Py.drop_while Py.isspace s = [].
Proof. induction 1 as [|c s Hc _ IH]; cbn; [|rewrite Hc]; auto. Qed.

Lemma drop_while_blank_app w s :
  blank w -> Py.drop_while Py.isspace (w ++ s) = Py.drop_while Py.isspace s.
Proof. induction 1 as [|c w Hc _ IH]; cbn; [|rewrite Hc]; auto. Qed.


Lemma blank_rev s : blank s -> blank (rev s).
Proof. unfold blank. rewrite !Forall_forall. intros H c Hc.
  apply H. apply list_elem_of_In. apply in_rev. apply list_elem_of_In, Hc. Qed.

Lemma lstrip_solid k s :
  (exists c r, k = c :: r /\ Py.isspace c = false) ->
  Py.drop_while Py.isspace (k ++ s) = k ++ s.
Proof. intros (c & r & -> & Hc). cbn. rewrite Hc. reflexivity. Qed.

Lemma rstrip_solid s k :
  (exists r c, k = r ++ [c] /\ Py.isspace c = false) ->
  Py.rstrip_by Py.isspace (s ++ k) = s ++ k.
Proof.
  intros (r & c & -> & Hc). unfold Py.rstrip_by.
  rewrite app_assoc, rev_app_distr. cbn. rewrite Hc.
  change (c :: rev (s ++ r)) with (rev [c] ++ rev (s ++ r)).
  rewrite <- rev_app_distr. apply rev_involutive.
Qed.

Lemma rstrip_blank_app s w :
  blank w -> Py.rstrip_by Py.isspace (s ++ w) = Py.rstrip_by Py.isspace s.
Proof.
  intros H. unfold Py.rstrip_by.
  rewrite rev_app_distr, drop_while_blank_app by (apply blank_rev, H).
  reflexivity.
Qed.


(** [strip] leaves a solid string alone and removes a blank frame. *)
Lemma strip_framed w1 k w2 :
  blank w1 -> blank w2 -> solid k -> Py.strip (w1 ++ k ++ w2) = k.
Proof.
  intros H1 H2 [Hs He].
  unfold Py.strip, Py.strip_by, Py.lstrip_by.
  rewrite drop_while_blank_app by exact H1.
  rewrite lstrip_solid by exact Hs.
  rewrite rstrip_blank_app by exact H2.
  apply (rstrip_solid [] k He).
Qed.


(** At a character that is not whitespace the collapsing starts afresh. *)
Lemma collapse_ws_at f p c r :
  Py.isspace c = false ->
  collapse_ws f (p ++ c :: r) = collapse_ws f p ++ c :: collapse_ws false r.
Proof.
  intros Hc. revert f. induction p as [|x p IH]; intros f; cbn.
  - rewrite Hc. reflexivity.
  - destruct (Py.isspace x); [destruct f|]; cbn; rewrite IH; reflexivity.
Qed.

Lemma collapse_ws_snoc f p c :
  Py.isspace c = false -> collapse_ws f (p ++ [c]) = collapse_ws f p ++ [c].
Proof. intros Hc. rewrite collapse_ws_at by exact Hc. reflexivity. Qed.


(** A solid string is collapsed on its own, whatever surrounds it. *)
Lemma collapse_ws_solid f x k y :
  solid k ->
  collapse_ws f (x ++ k ++ y)
  = collapse_ws f x ++ collapse_ws false k ++ collapse_ws false y.
Proof.
  intros [(c & r & Hk & Hc) (r' & c' & Hk' & Hc')].
  assert (Hr : collapse_ws false (r ++ y)
               = collapse_ws false r ++ collapse_ws false y).
  { rewrite Hk in Hk'. destruct r' as [|c0 r'0]; cbn in Hk'.
    - injection Hk' as _ ->. reflexivity.
    - injection Hk' as _ ->. rewrite <- app_assoc. cbn [app].
      rewrite collapse_ws_at, collapse_ws_snoc by exact Hc'.
      rewrite <- app_assoc. reflexivity. }
  rewrite Hk. cbn [app]. rewrite collapse_ws_at by exact Hc.
  cbn [collapse_ws]. rewrite Hc, Hr. reflexivity.
Qed.


(** A string is blank, or a solid string in a blank frame. *)
Lemma blank_or_framed s :
  blank s \/
  exists w1 k w2, s = w1 ++ k ++ w2 /\ blank w1 /\ blank w2 /\ solid k.
Proof.
  assert (Hlead : forall s, blank s \/
            exists w c r, s = w ++ c :: r /\ blank w /\ Py.isspace c = false).
  { clear s. induction s as [|x s IH]; [left; constructor|].
    destruct (Py.isspace x) eqn:Hx.
    - destruct IH as [IH|(w & c & r & -> & Hw & Hc)].
      + left. constructor; assumption.
      + right. exists (x :: w), c, r. repeat split; try assumption.
        constructor; assumption.
    - right. exists [], x, s. repeat split; [constructor | exact Hx]. }
  assert (Htrail : forall s, blank s \/
            exists r c w, s = r ++ c :: w /\ blank w /\ Py.isspace c = false).
  { clear s. induction s as [|x s IH] using rev_ind; [left; constructor|].
    destruct (Py.isspace x) eqn:Hx.
    - destruct IH as [IH|(r & c & w & -> & Hw & Hc)].
      + left. apply Forall_app. split; [exact IH|]. repeat constructor.
        exact Hx.
      + right. exists r, c, (w ++ [x]). rewrite <- app_assoc. cbn.
        repeat split; try assumption.
        apply Forall_app. split; [exact Hw|]. repeat constructor. exact Hx.
    - right. exists s, x, []. repeat split; [constructor | exact Hx]. }
  destruct (Hlead s) as [Hb|(w1 & c & r & -> & Hw1 & Hc)]; [left; exact Hb|].
  right. destruct (Htrail (c :: r)) as [Hb|(r2 & c2 & w2 & Heq & Hw2 & Hc2)].
  - inversion Hb; congruence.
  - exists w1, (r2 ++ [c2]), w2. rewrite <- (app_assoc r2). cbn [app].
    rewrite <- Heq. repeat split; try assumption.
    + destruct r2 as [|y r2]; cbn in Heq |- *.
      * injection Heq as <- _. eexists _, _. split; [reflexivity | exact Hc].
      * injection Heq as <- _. eexists _, _. split; [reflexivity | exact Hc].
    + eexists _, _. split; [reflexivity | exact Hc2].
Qed.



(** * Block scan *)

Section ScanProps.
Context `{HC : HostCheck}.







End ScanProps.

Section ExtractProps.
Context `{HC : HostCheck}.



(** * Fenced code blocks *)

Lemma pre_block_split element :
  pre_block element = before_closing_fence element ++ lit "```" ++ [nl].
Proof.
  unfold pre_block, before_closing_fence. cbv zeta.
  rewrite <- !app_assoc. reflexivity.
Qed.

Lemma last_after_newline a code :
  last (a ++ [nl] ++ code) = Some nl <-> code = [] \/ last code = Some nl.
Proof.
  destruct code as [|c code] using rev_ind.
  - rewrite app_nil_r, last_snoc. split; [left; reflexivity | reflexivity].
  - rewrite !app_assoc, !last_snoc. split.
    + intros H. right. exact H.
    + intros [H|H]; [destruct code; discriminate | exact H].
Qed.

(** C10 (closing fence), amended.  A [pre] element is rendered as the
    opening fence with the language, a newline, the raw text and then
    the closing fence at once.  What precedes the closing fence ends
    with a newline exactly when the raw text is empty or itself ends
    with a newline; in every other case the fence follows the last
    character of the code on the same line. *)
Theorem closing_fence_line url element :
  Soup.name_of (t_node element) = Some (lit "pre") ->
  let code_text := Soup.get_text (pre_source element) in
  render_block url element
  = Some [before_closing_fence element ++ lit "```" ++ [nl]]
  /\ (exists opening,
        before_closing_fence element = opening ++ [nl] ++ code_text)
  /\ (ends_with_newline (before_closing_fence element)
      <-> code_text = [] \/ ends_with_newline code_text).
Proof.
  intros Hn code_text.
  assert (Hb : before_closing_fence element
               = ([nl] ++ lit "```" ++ get_code_language (pre_source element))
                 ++ [nl] ++ code_text)
    by (unfold before_closing_fence; cbv zeta; rewrite <- !app_assoc;
        reflexivity).
  split; [|split].
  - unfold render_block. rewrite Hn, <- pre_block_split. reflexivity.
  - eexists. exact Hb.
  - unfold ends_with_newline. rewrite Hb. apply last_after_newline.
Qed.

End ExtractProps.

(** C10, the statement as written, fails for an empty [pre]: its raw text
    does not end with a newline, yet the closing fence starts a line. *)
Lemma empty_pre_fence_on_own_line :
  render_block (HC := no_bracketed_hosts) (lit "http://h/") pre_empty
  = Some [[nl] ++ lit "```php" ++ [nl] ++ lit "```" ++ [nl]]
  /\ Soup.get_text (pre_source pre_empty) = []
  /\ ~ ends_with_newline (Soup.get_text (pre_source pre_empty))
  /\ ends_with_newline (before_closing_fence pre_empty).
Proof.
  split; [vm_compute; reflexivity|]. split; [reflexivity|].
  split; [vm_compute; discriminate | vm_compute; reflexivity].
Qed.

Lemma closing_fence_line_witness :
  render_block (HC := no_bracketed_hosts) (lit "http://h/") pre_with_newline
  = Some [before_closing_fence pre_with_newline ++ lit "```" ++ [nl]]
  /\ ends_with_newline (before_closing_fence pre_with_newline).
Proof.
  destruct (closing_fence_line (HC := no_bracketed_hosts) (lit "http://h/")
              pre_with_newline) as (H1 & _ & H2).
  - reflexivity.
  - split; [exact H1|]. apply H2. right. vm_compute. reflexivity.
Defined.


(** * Properties of the crawl traversal *)

Section CrawlProps.
Context `{HC : HostCheck}.
Variable W : World.
Variable self : Scraper.

(** [scrape] unfolded once, its link loop named. *)
Lemma scrape_eq fuel url depth st :
  scrape W self fuel url depth st =
  let st1 := record_event (Called (seed self url) depth) st in
  match normalize_url self (seed self url) with
  | None => (Raised, st1)
  | Some u =>
      if bool_decide (u ∈ visited_urls st1) || (max_depth self <? depth)%Z
      then (Returned, st1)
      else
        match http_get W (fetched_urls (history st1)) u with
        | None => (Returned, requested u depth st1)
        | Some html =>
            scrape_page W self fuel depth u html (requested u depth st1)
        end
  end.
Proof.
  unfold scrape_page.
  destruct fuel as [|fuel]; cbn [scrape]; cbv zeta.
  all: destruct (normalize_url self _) as [u|]; [|reflexivity].
  all: destruct (bool_decide _ || _); [reflexivity|].
  all: destruct (http_get W _ u) as [html|]; [|reflexivity].
  all: destruct (extract_markdown _ u) as [md|]; [|reflexivity].
  all: destruct (depth <? max_depth self)%Z; [|reflexivity].
  all: destruct (get_internal_links W self html u _) as [links|];
    [|reflexivity].
  - reflexivity.
  - match goal with |- _ links ?s = _ => generalize s end.
    induction links as [|link rest IH]; intros s; [reflexivity|].
    cbn [visit_links].
    destruct (scrape W self fuel (Some link) (depth + 1) s) as [[] s'];
      try reflexivity. apply IH.
Qed.

Lemma fetched_urls_called h u d :
  fetched_urls (h ++ [Called u d]) = fetched_urls h.
Proof. unfold fetched_urls. rewrite omap_app. cbn. apply app_nil_r. Qed.

Lemma fetched_urls_fetched h u d vs :
  fetched_urls (h ++ [Fetched u d vs]) = fetched_urls h ++ [u].
Proof. unfold fetched_urls. rewrite omap_app. reflexivity. Qed.

(** *** The traversal only takes the three transitions *)

Lemma visit_links_steps fuel depth :
  (forall url d st, rtc crawl_step st (scrape W self fuel url d st).2) ->
  forall links st, rtc crawl_step st (visit_links W self fuel depth links st).2.
Proof.
  intros Hrec links. induction links as [|link rest IH]; intros st.
  - apply rtc_refl.
  - cbn [visit_links]. specialize (Hrec (Some link) (depth + 1)%Z st).
    destruct (scrape W self fuel (Some link) (depth + 1) st) as [[] st'];
      cbn in *; try exact Hrec.
    etrans; [exact Hrec | apply IH].
Qed.

Lemma scrape_steps fuel : forall url depth st,
  rtc crawl_step st (scrape W self fuel url depth st).2.
Proof.
  induction fuel as [|fuel IH]; intros url depth st; rewrite scrape_eq;
    cbv zeta.
  all: set (st1 := record_event _ st).
  all: assert (H1 : rtc crawl_step st st1) by (apply rtc_once, step_called).
  all: destruct (normalize_url self _) as [u|]; [|exact H1].
  all: destruct (bool_decide (u ∈ visited_urls st1)) eqn:Hv; cbn [orb];
    [exact H1|].
  all: destruct (max_depth self <? depth)%Z; [exact H1|].
  all: assert (H2 : rtc crawl_step st (requested u depth st1))
    by (eapply rtc_r; [exact H1|]; apply step_fetched;
        apply bool_decide_eq_false in Hv; exact Hv).
  all: destruct (http_get W _ u) as [html|]; [|exact H2].
  all: unfold scrape_page.
  all: destruct (extract_markdown _ u) as [md|]; [|exact H2].
  all: assert (H3 : rtc crawl_step st (appended md (requested u depth st1)))
    by (eapply rtc_r; [exact H2|]; apply step_appended).
  all: cbv zeta; destruct (depth <? max_depth self)%Z; [|exact H3].
  all: destruct (get_internal_links W self html u _) as [links|];
    [|exact H3].
  - exact H3.
  - etrans; [exact H3|]. apply visit_links_steps. exact IH.
Qed.

(** *** Invariants carried by the transitions *)

Lemma initial_inv : crawl_inv initial_state.
Proof.
  constructor; cbn.
  - intros u d vs H. inversion H.
  - constructor.
  - intros u H. inversion H.
Qed.

Lemma crawl_step_inv st st' :
  crawl_step st st' -> crawl_inv st -> crawl_inv st'.
Proof.
  intros Hs [Ha Hn Hv]. destruct Hs as [u d st|u d st Hnew|md st];
    constructor; cbn.
  - intros u' d' vs H. apply elem_of_app in H as [H|H]; [eauto|].
    apply list_elem_of_singleton in H. discriminate.
  - rewrite fetched_urls_called. exact Hn.
  - intros u'. rewrite fetched_urls_called. apply Hv.
  - intros u' d' vs H. apply elem_of_app in H as [H|H]; [eauto|].
    apply list_elem_of_singleton in H. injection H as -> -> ->.
    set_solver.
  - rewrite fetched_urls_fetched. apply NoDup_app. split; [exact Hn|].
    split; [|apply NoDup_singleton].
    intros x Hx Hx'. apply list_elem_of_singleton in Hx'. subst x.
    apply Hnew, Hv, Hx.
  - intros u'. rewrite fetched_urls_fetched. intros H.
    apply elem_of_app in H as [H|H].
    + apply elem_of_union_r, Hv, H.
    + apply list_elem_of_singleton in H. subst. set_solver.
  - exact Ha.
  - exact Hn.
  - exact Hv.
Qed.

Lemma crawl_steps_inv st st' :
  rtc crawl_step st st' -> crawl_inv st -> crawl_inv st'.
Proof.
  induction 1 as [|x y z Hxy _ IH]; [tauto|].
  intros Hx. apply IH. eapply crawl_step_inv; eassumption.
Qed.



(** *** Depths in the history *)

Lemma below_weaken depth e : below self (depth + 1) e -> below self depth e.
Proof. destruct e; cbn; lia. Qed.

Lemma visit_links_history fuel depth :
  (forall url st, exists tail,
      history (scrape W self fuel url (depth + 1) st).2
      = history st ++ Called (seed self url) (depth + 1) :: tail
      /\ Forall (below self (depth + 1)) tail) ->
  (depth < max_depth self)%Z ->
  forall links st, exists new,
    history (visit_links W self fuel depth links st).2 = history st ++ new
    /\ Forall (below self depth) new.
Proof.
  intros Hrec Hd links. induction links as [|link rest IH]; intros st.
  - exists []. split; [symmetry; apply app_nil_r | constructor].
  - cbn [visit_links].
    destruct (Hrec (Some link) st) as (tail & Hh & Ht).
    assert (Hnew : Forall (below self depth)
                     (Called (seed self (Some link)) (depth + 1) :: tail)).
    { constructor; [cbn; lia|].
      eapply Forall_impl; [exact Ht | apply below_weaken]. }
    destruct (scrape W self fuel (Some link) (depth + 1) st) as [[] st'];
      cbn in Hh |- *; try (eexists; split; [exact Hh | exact Hnew]).
    destruct (IH st') as (new & Hh' & Hn').
    exists ((Called (seed self (Some link)) (depth + 1) :: tail) ++ new).
    split; [rewrite Hh', Hh, <- app_assoc; reflexivity|].
    apply Forall_app; split; assumption.
Qed.

Lemma scrape_history fuel : forall url depth st, exists tail,
  history (scrape W self fuel url depth st).2
  = history st ++ Called (seed self url) depth :: tail
  /\ Forall (below self depth) tail.
Proof.
  induction fuel as [|fuel IH]; intros url depth st; rewrite scrape_eq;
    cbv zeta.
  all: assert (H1 : exists tail,
      history (record_event (Called (seed self url) depth) st)
      = history st ++ Called (seed self url) depth :: tail
      /\ Forall (below self depth) tail)
    by (exists []; split; [reflexivity | constructor]).
  all: destruct (normalize_url self _) as [u|]; [|exact H1].
  all: destruct (bool_decide _); cbn [orb]; [exact H1|].
  all: destruct (max_depth self <? depth)%Z eqn:Hd; [exact H1|].
  all: apply Z.ltb_ge in Hd.
  all: set (st2 := requested u depth _).
  all: assert (H2 : exists tail,
      history st2 = history st ++ Called (seed self url) depth :: tail
      /\ Forall (below self depth) tail)
    by (eexists; split;
        [cbn; rewrite <- app_assoc; reflexivity
        | repeat constructor; cbn; lia]).
  all: destruct (http_get W _ u) as [html|]; [|exact H2].
  all: unfold scrape_page.
  all: destruct (extract_markdown _ u) as [md|]; [|exact H2].
  all: cbv zeta; destruct (depth <? max_depth self)%Z eqn:Hlt; [|exact H2].
  all: destruct (get_internal_links W self html u _) as [links|];
    [|exact H2].
  - exact H2.
  - apply Z.ltb_lt in Hlt.
    destruct (visit_links_history fuel depth (fun url st => IH url _ st) Hlt
                links (appended md st2)) as (new & Hh & Hn).
    destruct H2 as (tail & Hh2 & Ht2).
    exists (tail ++ new). split.
    + rewrite Hh. cbn [appended history]. rewrite Hh2, <- app_assoc.
      reflexivity.
    + apply Forall_app; split; assumption.
Qed.

Lemma scrape_beyond_depth fuel url depth st :
  (max_depth self < depth)%Z ->
  (scrape W self fuel url depth st).2
  = record_event (Called (seed self url) depth) st.
Proof.
  intros Hd. rewrite scrape_eq. cbv zeta.
  destruct (normalize_url self _) as [u|]; [|reflexivity].
  apply Z.ltb_lt in Hd. rewrite Hd, orb_true_r. reflexivity.
Qed.

(** *** The depth budget is enough fuel *)



(** C1 (visited once).  Whatever call of [scrape] is made, at any depth
    and with any fuel, on a scraper whose history satisfies [crawl_inv],
    the history still satisfies it afterwards: every request was issued
    with its URL already in the visited set, no URL was requested more
    than once, and every requested URL is in the visited set, whose
    enumeration has no repetition.  A fresh scraper satisfies
    [crawl_inv], so this holds throughout a run and across
    re-submissions. *)
Theorem visited_once fuel url depth st :
  crawl_inv st ->
  let st' := (scrape W self fuel url depth st).2 in
  (forall u d vs, Fetched u d vs ∈ history st' -> u ∈ vs)
  /\ NoDup (fetched_urls (history st'))
  /\ (forall u, u ∈ fetched_urls (history st') -> u ∈ visited_urls st')
  /\ NoDup (elements (visited_urls st'))
  /\ crawl_inv st'.
Proof.
  intros Hinv st'.
  assert (H : crawl_inv st')
    by (eapply crawl_steps_inv; [apply scrape_steps | exact Hinv]).
  destruct H as [Ha Hn Hv].
  repeat split; try assumption. apply NoDup_elements.
Qed.

(** C2 (depth bound).  With a non-negative maximum depth, every event of
    a run started at the seed (calls and requests alike) has a depth in
    [0..max_depth]: no page beyond the maximum is requested.  A call
    whose depth exceeds the maximum only records itself and changes
    neither the visited set nor the results.  During a call at depth
    [d], requests happen at depths [d..max_depth] and further calls at
    depths [d+1..max_depth] only, so links are submitted only while
    [d < max_depth]. *)
Theorem depth_bound :
  (0 <= max_depth self)%Z ->
  (forall e, e ∈ history (run W self).2 ->
             (0 <= event_depth e <= max_depth self)%Z)
  /\ (forall fuel url depth st,
        (max_depth self < depth)%Z ->
        (scrape W self fuel url depth st).2
        = record_event (Called (seed self url) depth) st)
  /\ (forall fuel url depth st, exists tail,
        history (scrape W self fuel url depth st).2
        = history st ++ Called (seed self url) depth :: tail
        /\ Forall (below self depth) tail).
Proof.
  intros Hmax. split; [|split].
  - intros e He. unfold run in He.
    destruct (scrape_history (depth_budget self 0) None 0 initial_state)
      as (tail & Hh & Ht).
    rewrite Hh in He. cbn in He.
    apply elem_of_cons in He as [->|He]; [cbn; lia|].
    rewrite Forall_forall in Ht. specialize (Ht e He).
    destruct e; cbn in *; lia.
  - intros fuel url depth st. apply scrape_beyond_depth.
  - intros fuel. apply scrape_history.
Qed.


End CrawlProps.

(** The three statements at a concrete scraper. *)

Lemma visited_once_witness :
  let st' := (scrape (HC := no_bracketed_hosts) example_world example_scraper
                1 None 0 initial_state).2 in
  (forall u d vs, Fetched u d vs ∈ history st' -> u ∈ vs)
  /\ NoDup (fetched_urls (history st'))
  /\ (forall u, u ∈ fetched_urls (history st') -> u ∈ visited_urls st')
  /\ NoDup (elements (visited_urls st'))
  /\ crawl_inv st'.
Proof.
  apply (visited_once (HC := no_bracketed_hosts) example_world example_scraper
           1 None 0 initial_state).
  constructor; cbn.
  - intros u d vs H. inversion H.
  - constructor.
  - intros u H. inversion H.
Defined.

Lemma depth_bound_witness :
  (forall e, e ∈ history (run (HC := no_bracketed_hosts)
                            example_world example_scraper).2 ->
             (0 <= event_depth e <= max_depth example_scraper)%Z)
  /\ (forall fuel url depth st,
        (max_depth example_scraper < depth)%Z ->
        (scrape (HC := no_bracketed_hosts) example_world example_scraper
                fuel url depth st).2
        = record_event (Called (seed example_scraper url) depth) st)
  /\ (forall fuel url depth st, exists tail,
        history (scrape (HC := no_bracketed_hosts) example_world
                        example_scraper fuel url depth st).2
        = history st ++ Called (seed example_scraper url) depth :: tail
        /\ Forall (below example_scraper depth) tail).
Proof.
  apply (depth_bound (HC := no_bracketed_hosts) example_world example_scraper).
  cbn. lia.
Defined.


(** * Further properties of text cleaning *)

Lemma collapse_ws_fixed s : forall f,
  collapse_ws f (collapse_ws f s) = collapse_ws f s
  /\ collapse_ws false (collapse_ws f s) = collapse_ws f s.
Proof.
  induction s as [|c s IH]; intros f; [split; reflexivity|].
  cbn [collapse_ws]. destruct (Py.isspace c) eqn:Hc.
  - destruct f.
    + apply IH.
    + cbn [collapse_ws]. change (Py.isspace " "%char) with true. cbv iota.
      destruct (IH true) as [H1 _]. rewrite H1. split; reflexivity.
  - cbn [collapse_ws]. rewrite Hc. destruct (IH false) as [H1 _].
    rewrite H1. split; reflexivity.
Qed.

Lemma collapse_ws_length s : forall f,
  (List.length (collapse_ws f s) <= List.length s)%nat.
Proof.
  induction s as [|c s IH]; intros f; cbn; [lia|].
  destruct (Py.isspace c); [destruct f|]; cbn;
    [specialize (IH true) | specialize (IH true) | specialize (IH false)];
    lia.
Qed.

(** Every whitespace character that survives the collapsing is a space. *)
Lemma collapse_ws_spaces s : forall f c,
  c ∈ collapse_ws f s -> Py.isspace c = true -> c = " "%char.
Proof.
  induction s as [|x s IH]; intros f c; cbn; [intros H; inversion H|].
  destruct (Py.isspace x) eqn:Hx.
  - destruct f; [apply IH|]. intros H Hc.
    apply elem_of_cons in H as [->|H]; [reflexivity | eapply IH; eassumption].
  - intros H Hc. apply elem_of_cons in H as [->|H]; [congruence|].
    eapply IH; eassumption.
Qed.

Lemma drop_while_elem p s c : c ∈ Py.drop_while p s -> c ∈ s.
Proof.
  induction s as [|x s IH]; cbn; [auto|].
  destruct (p x); [|auto]. intros H. apply elem_of_cons. right. auto.
Qed.

Lemma strip_elem s c : c ∈ Py.strip s -> c ∈ s.
Proof.
  unfold Py.strip, Py.strip_by, Py.lstrip_by, Py.rstrip_by. intros H.
  apply list_elem_of_In, in_rev, list_elem_of_In in H.
  apply drop_while_elem in H.
  apply list_elem_of_In, in_rev, list_elem_of_In in H.
  eapply drop_while_elem. exact H.
Qed.

Lemma strip_blank s : blank s -> Py.strip s = [].
Proof.
  intros H. unfold Py.strip, Py.strip_by, Py.lstrip_by.
  rewrite drop_while_blank by exact H. reflexivity.
Qed.

(** [strip] returns the empty string or a solid one. *)
Lemma strip_cases s :
  Py.strip s = [] \/ (solid (Py.strip s) /\ exists w1 w2,
                        s = w1 ++ Py.strip s ++ w2 /\ blank w1 /\ blank w2).
Proof.
  destruct (blank_or_framed s) as [Hb|(w1 & k & w2 & -> & H1 & H2 & Hk)].
  - left. apply strip_blank, Hb.
  - right. rewrite strip_framed by assumption. split; [exact Hk|].
    exists w1, w2. auto.
Qed.

Lemma strip_solid k : solid k -> Py.strip k = k.
Proof.
  intros Hk. rewrite <- (app_nil_r k) at 1.
  apply (strip_framed [] k []); [constructor | constructor | exact Hk].
Qed.

Lemma clean_text_cases s : clean_text s = [] \/ solid (clean_text s).
Proof.
  unfold clean_text. destruct (strip_cases (collapse_ws false s)) as [H|[H _]];
    auto.
Qed.

Lemma collapse_ws_clean s :
  collapse_ws false (clean_text s) = clean_text s.
Proof.
  unfold clean_text.
  destruct (strip_cases (collapse_ws false s))
    as [H|(Hk & w1 & w2 & Hs & H1 & H2)]; [rewrite H; reflexivity|].
  pose proof (proj2 (collapse_ws_fixed s false)) as Hfix.
  revert Hk Hs Hfix. generalize (Py.strip (collapse_ws false s)) as k.
  generalize (collapse_ws false s) as x. intros x k Hk -> Hfix.
  rewrite collapse_ws_solid in Hfix by exact Hk.
  pose proof (collapse_ws_length w1 false) as L1.
  pose proof (collapse_ws_length k false) as L2.
  pose proof (collapse_ws_length w2 false) as L3.
  pose proof (f_equal List.length Hfix) as HL. rewrite !length_app in HL.
  apply app_inj_1 in Hfix as [_ Hfix]; [|lia].
  apply app_inj_1 in Hfix as [Hfix _]; [exact Hfix | lia].
Qed.

(** X1.  Cleaning a text twice gives what one cleaning gives. *)
Theorem clean_text_idempotent s : clean_text (clean_text s) = clean_text s.
Proof.
  unfold clean_text at 1. rewrite collapse_ws_clean.
  destruct (clean_text_cases s) as [H|H]; [rewrite H; reflexivity|].
  apply strip_solid, H.
Qed.

Lemma clean_text_spaces s c :
  c ∈ clean_text s -> Py.isspace c = true -> c = " "%char.
Proof.
  unfold clean_text. intros H. apply strip_elem in H.
  eapply collapse_ws_spaces. exact H.
Qed.

Lemma clean_text_no_newline s : nl ∉ clean_text s.
Proof.
  intros H. apply clean_text_spaces in H; [discriminate | reflexivity].
Qed.

Lemma collapse_ws_no_double s : forall f,
  Py.contains (lit "  ") (collapse_ws f s) = false
  /\ (f = true -> Py.startswith (lit " ") (collapse_ws f s) = false).
Proof.
  induction s as [|c s IH]; intros f; [split; reflexivity|].
  cbn [collapse_ws]. destruct (Py.isspace c) eqn:Hc.
  - destruct f; [apply IH|]. destruct (IH true) as [H1 H2].
    specialize (H2 eq_refl). split; [|discriminate].
    cbn [Py.contains]. rewrite H1, orb_false_r.
    cbn [Py.startswith lit list_ascii_of_string] in H2 |- *.
    destruct (collapse_ws true s) as [|x r]; [reflexivity|].
    cbn in H2 |- *. rewrite andb_true_r in H2 |- *. rewrite H2. reflexivity.
  - destruct (IH false) as [H1 _]. split.
    + cbn [Py.contains]. rewrite H1, orb_false_r.
      cbn [Py.startswith lit list_ascii_of_string].
      replace (Py.chr_eqb " " c) with false; [reflexivity|].
      symmetry. unfold Py.chr_eqb. apply Ascii.eqb_neq. intros <-.
      discriminate.
    + intros _. cbn [Py.startswith lit list_ascii_of_string].
      replace (Py.chr_eqb " " c) with false; [reflexivity|].
      symmetry. unfold Py.chr_eqb. apply Ascii.eqb_neq. intros <-.
      discriminate.
Qed.

(** X2.  A cleaned text is empty or starts and ends with a character that
    is not whitespace; its only whitespace characters are single spaces
    (so it holds no newline or tab). *)
Theorem clean_text_shape s :
  (clean_text s = [] \/ solid (clean_text s))
  /\ (forall c, c ∈ clean_text s -> Py.isspace c = true -> c = " "%char)
  /\ (nl ∉ clean_text s)
  /\ Py.contains (lit "  ") (clean_text s) = false.
Proof.
  split; [apply clean_text_cases|]. split; [apply clean_text_spaces|].
  split; [apply clean_text_no_newline|].
  rewrite <- collapse_ws_clean. apply collapse_ws_no_double.
Qed.

(** * The final clean-up of newlines *)

Lemma chr_eqb_refl c : Py.chr_eqb c c = true.
Proof. apply Ascii.eqb_refl. Qed.

Lemma startswith_repeat_short k c x :
  (k < 4)%nat -> Py.chr_eqb c nl = false ->
  Py.startswith four_newlines (repeat nl k ++ c :: x) = false.
Proof.
  intros Hk Hc.
  destruct k as [|[|[|[|k]]]]; try lia; cbn;
    rewrite ?chr_eqb_refl; cbn;
    rewrite Ascii.eqb_sym; fold (Py.chr_eqb c nl); rewrite Hc;
    reflexivity.
Qed.

Lemma contains_after_short k c x :
  (k < 4)%nat -> Py.chr_eqb c nl = false ->
  Py.contains four_newlines (repeat nl k ++ c :: x)
  = Py.contains four_newlines x.
Proof.
  intros Hk Hc. induction k as [|k IH].
  - pose proof (startswith_repeat_short 0 c x Hk Hc) as H0.
    cbn [repeat app] in H0 |- *. cbn [Py.contains]. rewrite H0. reflexivity.
  - pose proof (startswith_repeat_short (S k) c x Hk Hc) as H0.
    cbn [repeat app] in H0 |- *. cbn [Py.contains]. rewrite H0. cbn [orb].
    apply IH. lia.
Qed.

Lemma contains_repeat_short k :
  (k < 4)%nat -> Py.contains four_newlines (repeat nl k) = false.
Proof.
  intros Hk. destruct k as [|[|[|[|k]]]]; try lia; reflexivity.
Qed.

Lemma emit_newlines_short p :
  exists k, emit_newlines p = repeat nl k /\ (k < 4)%nat
            /\ ((p < 4)%nat -> k = p).
Proof.
  unfold emit_newlines. destruct (4 <=? p)%nat eqn:H.
  - exists 3%nat. apply Nat.leb_le in H. repeat split; lia.
  - exists p. apply Nat.leb_gt in H. repeat split; lia.
Qed.

Lemma squeeze_no_run md : forall p,
  Py.contains four_newlines (squeeze_newlines p md) = false.
Proof.
  induction md as [|c md IH]; intros p; cbn [squeeze_newlines].
  - destruct (emit_newlines_short p) as (k & -> & Hk & _).
    apply contains_repeat_short, Hk.
  - destruct (Py.chr_eqb c nl) eqn:Hc; [apply IH|].
    destruct (emit_newlines_short p) as (k & -> & Hk & _).
    rewrite contains_after_short by assumption. apply IH.
Qed.

Lemma filter_repeat_nl k : List.filter not_newline (repeat nl k) = [].
Proof. induction k; [reflexivity|]. cbn. exact IHk. Qed.

Lemma squeeze_keeps_text md : forall p,
  List.filter not_newline (squeeze_newlines p md)
  = List.filter not_newline md.
Proof.
  induction md as [|c md IH]; intros p; cbn [squeeze_newlines].
  - destruct (emit_newlines_short p) as (k & -> & _). apply filter_repeat_nl.
  - cbn [List.filter]. unfold not_newline at 2.
    destruct (Py.chr_eqb c nl) eqn:Hc; cbn [negb]; [apply IH|].
    destruct (emit_newlines_short p) as (k & -> & _).
    rewrite List.filter_app, filter_repeat_nl. cbn [app List.filter].
    unfold not_newline at 1. rewrite Hc. cbn [negb]. f_equal. apply IH.
Qed.

Lemma contains_app_r sub a b :
  Py.contains sub (a ++ b) = false -> Py.contains sub b = false.
Proof.
  induction a as [|x a IH]; [auto|]. cbn [app Py.contains].
  intros H. apply orb_false_elim in H as [_ H]. apply IH, H.
Qed.

Lemma contains_long_run p x :
  (4 <= p)%nat -> Py.contains four_newlines (repeat nl p ++ x) = true.
Proof.
  intros Hp. do 4 (destruct p as [|p]; [lia|]). cbn.
  rewrite !chr_eqb_refl. reflexivity.
Qed.

Lemma squeeze_identity md : forall p,
  Py.contains four_newlines (repeat nl p ++ md) = false ->
  squeeze_newlines p md = repeat nl p ++ md.
Proof.
  induction md as [|c md IH]; intros p H; cbn [squeeze_newlines].
  - rewrite app_nil_r. destruct (emit_newlines_short p) as (k & -> & _ & Hk).
    f_equal. apply Hk. destruct (Nat.lt_ge_cases p 4) as [?|Hp]; [assumption|].
    rewrite contains_long_run in H by exact Hp. discriminate.
  - assert (Hp : (p < 4)%nat).
    { destruct (Nat.lt_ge_cases p 4) as [?|Hp]; [assumption|].
      rewrite contains_long_run in H by exact Hp. discriminate. }
    destruct (Py.chr_eqb c nl) eqn:Hc.
    + apply Ascii.eqb_eq in Hc. subst c.
      rewrite IH.
      * cbn [repeat]. rewrite repeat_cons, <- app_assoc. reflexivity.
      * cbn [repeat]. rewrite repeat_cons, <- app_assoc. exact H.
    + destruct (emit_newlines_short p) as (k & -> & _ & Hk).
      rewrite (Hk Hp). f_equal. f_equal.
      apply (IH 0%nat). cbn [repeat app].
      apply (contains_app_r _ (repeat nl p ++ [c])).
      rewrite <- app_assoc. exact H.
Qed.

Section Cleanup.
Context `{HC : HostCheck}.

(** X3.  The Markdown of a page never holds four newlines in a row, also
    inside a code block; apart from newlines it consists of the
    characters of the fragments in their order, and it is the plain
    concatenation of the fragments when that holds no such run. *)
Theorem extract_markdown_newlines document url md :
  extract_markdown document url = Some md ->
  exists parts,
    extract_parts document url = Some parts
    /\ Py.contains four_newlines md = false
    /\ List.filter not_newline md = List.filter not_newline (concat parts)
    /\ (Py.contains four_newlines (concat parts) = false ->
        md = concat parts).
Proof.
  unfold extract_markdown.
  destruct (extract_parts document url) as [parts|]; [|discriminate].
  intros [= <-]. exists parts. split; [reflexivity|].
  split; [apply squeeze_no_run|]. split; [apply squeeze_keeps_text|].
  intros H. apply (squeeze_identity _ 0%nat). exact H.
Qed.

End Cleanup.

(** * Code language *)

Lemma remove_sub_fuel_enough old : old <> [] -> forall n s f1 f2,
  (List.length s <= n)%nat -> (n <= f1)%nat -> (n <= f2)%nat ->
  Py.remove_sub_fuel f1 old s = Py.remove_sub_fuel f2 old s.
Proof.
  intros Hold. induction n as [|n IH]; intros s f1 f2 Hs H1 H2.
  - destruct s; [|cbn in Hs; lia]. destruct f1, f2; reflexivity.
  - destruct s as [|c s]; [destruct f1, f2; reflexivity|].
    destruct f1 as [|f1]; [lia|]. destruct f2 as [|f2]; [lia|].
    cbn [Py.remove_sub_fuel]. destruct (Py.startswith old (c :: s)).
    + apply IH; try lia. rewrite length_skipn. cbn in Hs |- *.
      destruct old; [congruence|]. cbn. lia.
    + f_equal. apply IH; cbn in Hs; lia.
Qed.

Lemma startswith_app p s : Py.startswith p (p ++ s) = true.
Proof.
  induction p as [|c p IH]; [reflexivity|]. cbn.
  unfold Py.chr_eqb. rewrite Ascii.eqb_refl. exact IH.
Qed.

Lemma remove_sub_fuel_step f old x :
  old <> [] ->
  Py.remove_sub_fuel (S f) old (old ++ x) = Py.remove_sub_fuel f old x.
Proof.
  intros Hold. destruct old as [|c old]; [congruence|].
  cbn [Py.remove_sub_fuel app].
  change (c :: old ++ x) with ((c :: old) ++ x).
  rewrite startswith_app. f_equal. apply drop_app_length.
Qed.

Lemma remove_sub_prefix old x :
  old <> [] -> Py.remove_sub old (old ++ x) = Py.remove_sub old x.
Proof.
  intros Hold. unfold Py.remove_sub. rewrite remove_sub_fuel_step by exact Hold.
  apply (remove_sub_fuel_enough old Hold (List.length x));
    rewrite ?length_app; lia.
Qed.

Lemma remove_sub_absent old x :
  Py.contains old x = false -> Py.remove_sub old x = x.
Proof.
  unfold Py.remove_sub. generalize (S (List.length x)) as fuel.
  induction x as [|c x IH]; intros fuel H; destruct fuel; try reflexivity.
  cbn [Py.remove_sub_fuel]. cbn [Py.contains] in H.
  apply orb_false_elim in H as [H1 H2]. rewrite H1. f_equal. apply IH, H2.
Qed.

(** X4.  With the classes of an element given as a list: when no class
    starts with [language-] or [lang-] the language is [php]; otherwise
    the first class with such a prefix decides, and the language is what
    follows the prefix. *)
Theorem code_language_from_classes element classes :
  Soup.attr_of (lit "class") element = Some (AList classes) ->
  (Forall no_language_prefix classes ->
   get_code_language element = lit "php")
  /\ (forall pre x post,
        classes = pre ++ (lit "language-" ++ x) :: post ->
        Forall no_language_prefix pre ->
        Py.contains (lit "language-") x = false ->
        get_code_language element = x)
  /\ (forall pre x post,
        classes = pre ++ (lit "lang-" ++ x) :: post ->
        Forall no_language_prefix pre ->
        Py.contains (lit "lang-") x = false ->
        get_code_language element = x).
Proof.
  intros Hattr. unfold get_code_language. rewrite Hattr. clear Hattr.
  split; [|split].
  - induction 1 as [|cls rest [H1 H2] _ IH]; [reflexivity|].
    rewrite H1, H2. exact IH.
  - intros pre x post -> Hpre Hx.
    induction Hpre as [|cls rest [H1 H2] _ IH].
    + cbn [app]. rewrite startswith_app.
      rewrite remove_sub_prefix by discriminate.
      apply remove_sub_absent, Hx.
    + cbn [app]. rewrite H1, H2. exact IH.
  - intros pre x post -> Hpre Hx.
    induction Hpre as [|cls rest [H1 H2] _ IH].
    + cbn [app].
      replace (Py.startswith (lit "language-") (lit "lang-" ++ x)) with false
        by (destruct x as [|c x]; [reflexivity|];
            cbn; destruct (Py.chr_eqb "u" c); reflexivity).
      rewrite startswith_app.
      rewrite remove_sub_prefix by discriminate.
      apply remove_sub_absent, Hx.
    + cbn [app]. rewrite H1, H2. exact IH.
Qed.

(** * Error behaviour of the renderer *)

Lemma str_eqb_true a b : Py.str_eqb a b = true -> a = b.
Proof. unfold Py.str_eqb. apply bool_decide_eq_true. Qed.

Section RenderErrors.
Context `{HC : HostCheck}.

Lemma inline_child_none url child :
  inline_child url child = None <-> bad_anchor url child.
Proof.
  unfold bad_anchor. destruct child as [s|s|nm a cs].
  - split; [discriminate | intros [H _]; discriminate].
  - split; [discriminate | intros [H _]; discriminate].
  - unfold inline_child.
    destruct (Py.str_eqb nm (lit "code")) eqn:H1.
    { apply str_eqb_true in H1. subst nm.
      split; [discriminate | intros [H _]; vm_compute in H; discriminate]. }
    destruct (Py.str_eqb nm (lit "a")) eqn:H2.
    { apply str_eqb_true in H2. subst nm.
      destruct (Url.urljoin url _) eqn:Hj.
      - split; [discriminate | intros [_ H]; discriminate].
      - split; [intros _; split; reflexivity | reflexivity]. }
    assert (Hn : Soup.named [lit "a"] (Elem nm a cs) = false)
      by (cbn [Soup.named existsb]; rewrite H2; reflexivity).
    destruct (_ || _); [|destruct (_ || _)];
      (split; [discriminate | intros [H _]; congruence]).
Qed.

Lemma inline_children_none url cs :
  inline_children url cs = None <-> Exists (bad_anchor url) cs.
Proof.
  induction cs as [|c cs IH]; cbn [inline_children].
  - split; [discriminate | intros H; inversion H].
  - destruct (inline_child url c) eqn:Hc.
    + assert (Hb : ~ bad_anchor url c)
        by (intros Hb; apply inline_child_none in Hb; congruence).
      destruct (inline_children url cs) eqn:Hcs.
      * split; [discriminate|]. intros H. apply Exists_cons in H as [H|H];
          [contradiction | apply IH in H; discriminate].
      * split; [intros _; apply Exists_cons; right; apply IH; reflexivity
               | reflexivity].
    + split; [|reflexivity]. intros _. apply Exists_cons. left.
      apply inline_child_none, Hc.
Qed.

(** X5.  Rendering a block fails in two cases only: a paragraph with an
    anchor among its children whose [href] cannot be joined to the page
    URL, and an image whose [src] cannot be joined.  Headings, code
    blocks, lists, quotations, tables and diagrams are always rendered. *)
Theorem render_block_failure url element :
  render_block url element = None <->
  (Soup.named [lit "p"] (t_node element) = true
   /\ Exists (bad_anchor url) (Soup.children_of (t_node element)))
  \/ (Soup.named [lit "img"] (t_node element) = true
      /\ Url.urljoin url (Soup.attr_str (lit "src") (t_node element)) = None).
Proof.
  unfold render_block. destruct (t_node element) as [s|s|nm a cs] eqn:Hn.
  - split; [discriminate | intros [[H _]|[H _]]; discriminate].
  - split; [discriminate | intros [[H _]|[H _]]; discriminate].
  - cbn [Soup.name_of].
    assert (Hsome : forall (x : list str),
      (Py.str_eqb nm (lit "p") = false) ->
      (Py.str_eqb nm (lit "img") = false) ->
      Some x = None <->
      (Soup.named [lit "p"] (Elem nm a cs) = true
       /\ Exists (bad_anchor url) (Soup.children_of (Elem nm a cs)))
      \/ (Soup.named [lit "img"] (Elem nm a cs) = true
          /\ Url.urljoin url (Soup.attr_str (lit "src") (Elem nm a cs))
             = None)).
    { intros x Hp Hi. cbn [Soup.named existsb]. rewrite Hp, Hi.
      split; [discriminate | intros [[H _]|[H _]]; discriminate]. }
    destruct (Url.in_list nm heading_names) eqn:Hh.
    { apply Hsome; unfold Url.in_list in Hh; cbn in Hh;
        repeat (apply orb_true_iff in Hh as [Hh|Hh];
                [apply str_eqb_true in Hh; subst nm; reflexivity|]);
        discriminate. }
    destruct (Py.str_eqb nm (lit "p")) eqn:Hp.
    { apply str_eqb_true in Hp. subst nm.
      unfold process_inline_elements. cbn [Soup.children_of].
      destruct (inline_children url cs) as [text|] eqn:Hi.
      - assert (Hne : ~ Exists (bad_anchor url) cs)
          by (intros H; apply inline_children_none in H; congruence).
        split.
        + destruct (Py.truthy (clean_text text)); discriminate.
        + intros [[_ H]|[H _]]; [contradiction | vm_compute in H; discriminate].
      - split; [|reflexivity]. intros _. left. split; [reflexivity|].
        apply inline_children_none, Hi. }
    destruct (Py.str_eqb nm (lit "pre")) eqn:H3.
    { apply Hsome; [reflexivity|]. apply str_eqb_true in H3. subst nm.
      reflexivity. }
    destruct (Py.str_eqb nm (lit "ul") || Py.str_eqb nm (lit "ol")) eqn:H4.
    { apply Hsome; [reflexivity|]. apply orb_true_iff in H4 as [H4|H4];
        apply str_eqb_true in H4; subst nm; reflexivity. }
    destruct (Py.str_eqb nm (lit "blockquote")) eqn:H5.
    { apply Hsome; [reflexivity|]. apply str_eqb_true in H5. subst nm.
      reflexivity. }
    destruct (Py.str_eqb nm (lit "table")) eqn:H6.
    { assert (Hi : Py.str_eqb nm (lit "img") = false)
        by (apply str_eqb_true in H6; subst nm; reflexivity).
      destruct (Py.truthy _); apply Hsome; first [reflexivity | assumption]. }
    destruct (Py.str_eqb nm (lit "img")) eqn:H7.
    { apply str_eqb_true in H7. subst nm.
      destruct (Url.urljoin url _) eqn:Hj.
      - split; [discriminate|].
        intros [[H _]|[_ H]]; [vm_compute in H; discriminate | congruence].
      - split; [|reflexivity]. intros _. right. split; reflexivity. }
    destruct (Py.str_eqb nm (lit "svg")); apply Hsome; first [reflexivity | assumption].
Qed.

End RenderErrors.

(** * Single-line blocks *)

Lemma split_absent c s : c ∉ s -> Py.split c s = [s].
Proof.
  induction s as [|x s IH]; [reflexivity|]. intros H.
  apply not_elem_of_cons in H as [Hx Hs]. cbn [Py.split]. rewrite (IH Hs).
  replace (Py.chr_eqb x c) with false; [reflexivity|].
  symmetry. apply Ascii.eqb_neq. congruence.
Qed.

Lemma clean_heading_text_no_newline s : nl ∉ clean_heading_text s.
Proof. apply (clean_text_no_newline (drop_hashes s)). Qed.

Section Lines.
Context `{HC : HostCheck}.

(** X6.  A quotation is rendered as one quoted line, the cleaned text of
    the element: the cleaned text holds no newline, so splitting it into
    lines gives nothing more.  A quotation without text is rendered as
    two bare newlines. *)
Theorem blockquote_one_line url element :
  Soup.name_of (t_node element) = Some (lit "blockquote") ->
  let text := clean_text (Soup.get_text (t_node element)) in
  render_block url element
  = Some [if Py.truthy text then [nl] ++ lit "> " ++ text ++ [nl]
          else [nl; nl]]
  /\ nl ∉ text.
Proof.
  intros Hn text. split; [|apply clean_text_no_newline].
  assert (Hr : render_block url element
    = Some [[nl] ++ Py.join [nl]
              (map (fun line => lit "> " ++ line)
                   (List.filter (fun line => Py.truthy (Py.strip line))
                                (Py.split nl text))) ++ [nl]])
    by (unfold render_block; rewrite Hn; reflexivity).
  rewrite Hr, (split_absent nl text) by apply clean_text_no_newline.
  cbn [List.filter]. destruct (clean_text_cases (Soup.get_text (t_node element)))
    as [He|Hs]; fold text in He || fold text in Hs.
  - rewrite He. reflexivity.
  - rewrite (strip_solid text Hs).
    destruct Hs as [(c & r & Hc & _) _]. rewrite Hc. reflexivity.
Qed.

(** X7.  A heading element [h1] to [h6] is rendered on one line: as many
    [#] as its level, a space and the cleaned text, which holds no
    newline. *)
Theorem heading_one_line url element name :
  Soup.name_of (t_node element) = Some name ->
  name ∈ heading_names ->
  let text := clean_heading_text (Soup.get_text (t_node element)) in
  exists level,
    (1 <= level <= 6)%nat
    /\ name = lit "h" ++ Py.str_of_nat level
    /\ render_block url element
       = Some [[nl] ++ repeat "#"%char level ++ lit " " ++ text ++ [nl]]
    /\ nl ∉ text.
Proof.
  intros Hn Hin text. unfold heading_names in Hin. cbn [map] in Hin.
  assert (Hcase : forall level,
            (1 <= level <= 6)%nat ->
            name = lit "h" ++ Py.str_of_nat level ->
            exists level,
              (1 <= level <= 6)%nat
              /\ name = lit "h" ++ Py.str_of_nat level
              /\ render_block url element
                 = Some [[nl] ++ repeat "#"%char level ++ lit " " ++ text
                         ++ [nl]]
              /\ nl ∉ text).
  { intros level Hl ->. exists level. split; [exact Hl|].
    split; [reflexivity|]. split; [|apply clean_heading_text_no_newline].
    unfold render_block. rewrite Hn.
    destruct level as [|[|[|[|[|[|[|level]]]]]]]; try lia; reflexivity. }
  apply elem_of_cons in Hin as [->|Hin]; [apply (Hcase 1%nat); [lia|reflexivity]|].
  apply elem_of_cons in Hin as [->|Hin]; [apply (Hcase 2%nat); [lia|reflexivity]|].
  apply elem_of_cons in Hin as [->|Hin]; [apply (Hcase 3%nat); [lia|reflexivity]|].
  apply elem_of_cons in Hin as [->|Hin]; [apply (Hcase 4%nat); [lia|reflexivity]|].
  apply elem_of_cons in Hin as [->|Hin]; [apply (Hcase 5%nat); [lia|reflexivity]|].
  apply elem_of_cons in Hin as [->|Hin]; [apply (Hcase 6%nat); [lia|reflexivity]|].
  inversion Hin.
Qed.

End Lines.

(** * Removal of unwanted elements *)

Lemma prune_named names n : Soup.named names (prune n) = Soup.named names n.
Proof. destruct n; reflexivity. Qed.

Lemma prune_subtree n : forall p anc d,
  d ∈ Soup.subtree p anc (prune n) ->
  Soup.named unwanted_names (t_node d) = false.
Proof.
  induction n as [s|s|nm a cs IHcs] using node_induction; intros p anc d.
  - cbn. intros H. inversion H.
  - cbn. intros H. inversion H.
  - cbn [prune]. rewrite subtree_elem. generalize 0%nat.
    induction IHcs as [|c cs Hc _ IH]; intros i.
    + cbn. intros H. inversion H.
    + destruct (Soup.named unwanted_names c) eqn:Hu; [apply IH|].
      cbn [Soup.forest]. intros H. apply elem_of_cons in H as [->|H].
      * cbn [t_node]. rewrite prune_named. exact Hu.
      * apply elem_of_app in H as [H|H]; [eapply Hc; exact H|].
        eapply IH. exact H.
Qed.

Lemma prune_clean n : forall p anc,
  (forall d, d ∈ Soup.subtree p anc n ->
             Soup.named unwanted_names (t_node d) = false) ->
  prune n = n.
Proof.
  induction n as [s|s|nm a cs IHcs] using node_induction; intros p anc;
    try reflexivity.
  rewrite subtree_elem. cbn [prune]. generalize 0%nat.
  induction IHcs as [|c cs Hc _ IH]; intros i H; [reflexivity|].
  cbn [Soup.forest] in H.
  assert (Hu : Soup.named unwanted_names c = false).
  { apply (H (mkTag (i :: p) (nm :: anc) c)). apply elem_of_cons. left.
    reflexivity. }
  rewrite Hu. f_equal. f_equal.
  - apply (Hc (i :: p) (nm :: anc)). intros d Hd. apply H.
    apply elem_of_cons. right. apply elem_of_app. left. exact Hd.
  - assert (IH' := IH (S i)). 
    assert (Hrest : forall d, d ∈ Soup.forest p (nm :: anc) (S i) cs ->
                     Soup.named unwanted_names (t_node d) = false).
    { intros d Hd. apply H. apply elem_of_cons. right. apply elem_of_app.
      right. exact Hd. }
    specialize (IH' Hrest). injection IH' as IH'. exact IH'.
Qed.

(** X8.  After the removal step no script, style, nav, footer, header or
    aside element is left anywhere in the document, and a document that
    holds none of them is returned unchanged. *)
Theorem prune_removes_unwanted document :
  (forall d, d ∈ Soup.descendants (Soup.root (prune document)) ->
             Soup.named unwanted_names (t_node d) = false)
  /\ ((forall d, d ∈ Soup.descendants (Soup.root document) ->
                 Soup.named unwanted_names (t_node d) = false) ->
      prune document = document).
Proof.
  split.
  - intros d. apply prune_subtree.
  - apply prune_clean.
Qed.

(** * The block scan in document order *)

Lemma nodup_map_filter {A B} (f : A -> B) (g : A -> bool) l :
  NoDup (map f l) -> NoDup (map f (List.filter g l)).
Proof.
  induction l as [|x l IH]; [auto|]. cbn [map List.filter]. intros H.
  apply NoDup_cons in H as [Hx H]. destruct (g x); [|auto].
  cbn [map]. apply NoDup_cons. split; [|auto].
  intros Hin. apply Hx. apply list_elem_of_fmap in Hin as (y & Hy & Hin).
  apply list_elem_of_fmap. exists y. split; [exact Hy|].
  apply list_elem_of_In. apply list_elem_of_In, filter_In in Hin. apply Hin.
Qed.

Section ScanOrder.
Context `{HC : HostCheck}.

Lemma scan_rendered url els : forall st st',
  NoDup (map t_path els) ->
  (forall e, e ∈ els -> t_path e ∉ processed st) ->
  scan url st els = Some st' ->
  exists rendered,
    Forall2 (fun e r => render_block url e = Some r)
            (List.filter outside_code els) rendered
    /\ md_parts st' = md_parts st ++ concat rendered.
Proof.
  induction els as [|e els IH]; intros st st' Hnd Hfresh; cbn [scan].
  - intros [= <-]. exists []. split; [constructor|].
    symmetry. apply app_nil_r.
  - cbn [map] in Hnd. apply NoDup_cons in Hnd as [He Hnd].
    unfold scan_step. rewrite bool_decide_eq_false_2
      by (apply Hfresh; apply elem_of_cons; left; reflexivity).
    cbn [List.filter]. unfold outside_code at 1.
    destruct (_ || _); cbn [negb].
    + intros H. apply IH in H; [exact H | exact Hnd |].
      intros e' He'. apply Hfresh. apply elem_of_cons. right. exact He'.
    + destruct (render_block url e) as [parts|] eqn:Hr; [|discriminate].
      intros H. apply IH in H; [|exact Hnd|].
      * destruct H as (rendered & HF & Hm). exists (parts :: rendered).
        split; [constructor; assumption|].
        rewrite Hm. cbn [md_parts concat]. rewrite <- app_assoc. reflexivity.
      * intros e' He'. cbn [processed]. intros Hin.
        apply elem_of_cons in Hin as [Heq|Hin].
        -- apply He. rewrite <- Heq. apply list_elem_of_fmap. exists e'.
           split; [reflexivity | exact He'].
        -- revert Hin. apply Hfresh. apply elem_of_cons. right. exact He'.
Qed.

(** X9.  The fragments of a page are its header followed by what
    [render_block] gives for each scanned element outside [pre] and
    [code], once each and in document order: the identity check of the
    scan never skips an element, and nothing is reordered. *)
Theorem fragments_in_document_order document url parts :
  extract_parts document url = Some parts ->
  let soup := Soup.root (prune document) in
  let content := find_content_container soup in
  exists rendered,
    Forall2 (fun e r => render_block url e = Some r)
            (List.filter outside_code (scan_elements content)) rendered
    /\ parts = page_header soup url ++ concat rendered.
Proof.
  intros H soup content. unfold extract_parts in H.
  fold soup in H. fold content in H.
  destruct (scan url _ (scan_elements content)) as [st|] eqn:Hs;
    [|discriminate].
  injection H as <-.
  apply scan_rendered in Hs.
  - exact Hs.
  - unfold scan_elements, Soup.find_all.
    apply nodup_map_filter, descendants_nodup.
  - intros e _ Hin. inversion Hin.
Qed.

End ScanOrder.

(** * Tables that are left out *)



(** * The result file *)

Lemma write_pages_join total rest : forall i file,
  (i + Z.of_nat (List.length rest) = total)%Z ->
  write_pages total i rest file = file ++ Py.join page_break rest.
Proof.
  induction rest as [|md rest IH]; intros i file Hi; cbn [write_pages].
  - symmetry. apply app_nil_r.
  - cbv zeta. cbn [List.length] in Hi. rewrite IH by lia.
    destruct rest as [|md' rest'].
    + cbn [List.length] in Hi.
      replace (i <? total - 1)%Z with false by (symmetry; apply Z.ltb_ge; lia).
      cbn [Py.join]. rewrite app_nil_r. reflexivity.
    + cbn [List.length] in Hi.
      replace (i <? total - 1)%Z with true by (symmetry; apply Z.ltb_lt; lia).
      cbn [Py.join]. rewrite <- !app_assoc. reflexivity.
Qed.

(** X11.  The text written by [save_results] is the page documents in
    their order, joined by the page-break marker: no marker precedes the
    first document or follows the last, and no results give an empty
    file. *)
Theorem save_results_joins results :
  save_results results = Py.join page_break results
  /\ save_results [] = []
  /\ (forall md, save_results [md] = md)
  /\ (forall md rest,
        rest <> [] ->
        save_results (md :: rest) = md ++ page_break ++ save_results rest).
Proof.
  assert (H : forall rs, save_results rs = Py.join page_break rs)
    by (intros rs; unfold save_results; apply write_pages_join; lia).
  split; [apply H|]. split; [reflexivity|].
  split; [intros md; rewrite H; reflexivity|].
  intros md rest Hr. rewrite !H. destruct rest; [congruence | reflexivity].
Qed.

(** * Shape of a normalized URL *)

Lemma split1_some c s a b :
  Py.split1 c s = Some (a, b) -> s = a ++ c :: b /\ c ∉ a.
Proof.
  revert a b. induction s as [|x s IH]; intros a b; cbn [Py.split1];
    [discriminate|].
  destruct (Py.chr_eqb x c) eqn:Hx.
  - intros [= <- <-]. apply Ascii.eqb_eq in Hx. subst x.
    split; [reflexivity | apply not_elem_of_nil].
  - destruct (Py.split1 c s) as [[a' b']|]; [|discriminate].
    intros [= <- <-]. destruct (IH a' b' eq_refl) as [-> Ha].
    split; [reflexivity|]. apply not_elem_of_cons. split; [|exact Ha].
    intros ->. unfold Py.chr_eqb in Hx. rewrite Ascii.eqb_refl in Hx.
    discriminate.
Qed.

Lemma split1_none c s : Py.split1 c s = None -> c ∉ s.
Proof.
  induction s as [|x s IH]; cbn [Py.split1]; [intros _; apply not_elem_of_nil|].
  destruct (Py.chr_eqb x c) eqn:Hx; [discriminate|].
  destruct (Py.split1 c s) as [[a' b']|]; [discriminate|].
  intros _. apply not_elem_of_cons. split; [|apply IH; reflexivity].
  intros ->. unfold Py.chr_eqb in Hx. rewrite Ascii.eqb_refl in Hx.
  discriminate.
Qed.

Lemma break_at_parts p s :
  s = (Py.break_at p s).1 ++ (Py.break_at p s).2
  /\ Forall (fun x => p x = false) (Py.break_at p s).1.
Proof.
  induction s as [|x s [IH1 IH2]]; cbn [Py.break_at];
    [split; [reflexivity | constructor]|].
  destruct (p x) eqn:Hx; [split; [reflexivity | constructor]|].
  destruct (Py.break_at p s) as [a b]. cbn [fst snd] in *.
  split; [rewrite IH1 at 1; reflexivity | constructor; assumption].
Qed.

Lemma scheme_chr_plain c :
  Url.is_scheme_chr c = true -> plain_chr (Py.lower_chr c) = true.
Proof.
  destruct c as [[] [] [] [] [] [] [] []]; vm_compute; congruence.
Qed.

Lemma plain_of_safe c :
  c <> "#"%char -> Py.mem c Url.unsafe_bytes = false -> plain_chr c = true.
Proof.
  intros H1 H2. unfold plain_chr. rewrite H2.
  replace (Py.chr_eqb c "#") with false; [reflexivity|].
  symmetry. apply Ascii.eqb_neq, H1.
Qed.

Lemma elem_of_firstn {A} n (l : list A) x : x ∈ firstn n l -> x ∈ l.
Proof.
  intros H. apply list_elem_of_In in H. apply list_elem_of_In.
  rewrite <- (firstn_skipn n l). apply in_or_app. left. exact H.
Qed.

Lemma elem_of_skipn {A} n (l : list A) x : x ∈ skipn n l -> x ∈ l.
Proof.
  intros H. apply list_elem_of_In in H. apply list_elem_of_In.
  rewrite <- (firstn_skipn n l). apply in_or_app. right. exact H.
Qed.

Lemma rstrip_elem p s c : c ∈ Py.rstrip_by p s -> c ∈ s.
Proof.
  unfold Py.rstrip_by. intros H.
  apply list_elem_of_In, in_rev, list_elem_of_In in H.
  apply drop_while_elem in H.
  apply list_elem_of_In, in_rev, list_elem_of_In in H. exact H.
Qed.

Lemma drop_while_head p s x r :
  Py.drop_while p s = x :: r -> p x = false.
Proof.
  induction s as [|y s IH]; cbn; [discriminate|].
  destruct (p y) eqn:Hy; [exact IH|]. intros [= <- _]. exact Hy.
Qed.

Lemma rstrip_last p s c : last (Py.rstrip_by p s) = Some c -> p c = false.
Proof.
  unfold Py.rstrip_by. destruct (Py.drop_while p (rev s)) as [|x r] eqn:H.
  - discriminate.
  - cbn [rev]. rewrite last_snoc. intros [= <-].
    eapply drop_while_head. exact H.
Qed.

Lemma split_elems c s seg x : seg ∈ Py.split c s -> x ∈ seg -> x ∈ s.
Proof.
  revert seg. induction s as [|y s IH]; intros seg Hseg Hx; cbn in Hseg.
  - apply list_elem_of_singleton in Hseg. subst. exact Hx.
  - destruct (Py.split c s) as [|seg0 segs] eqn:Hs.
    + apply list_elem_of_singleton in Hseg. subst. inversion Hx.
    + destruct (Py.chr_eqb y c).
      * apply elem_of_cons in Hseg as [-> | Hseg]; [inversion Hx|].
        apply elem_of_cons. right. exact (IH _ Hseg Hx).
      * apply elem_of_cons in Hseg as [-> | Hseg].
        -- apply elem_of_cons in Hx as [-> | Hx]; [left|].
           right. apply (IH seg0); [left | exact Hx].
        -- apply elem_of_cons. right. apply (IH seg); [right; exact Hseg|].
           exact Hx.
Qed.

Lemma last_default_elem {A} (l : list A) d :
  l = [] \/ List.last l d ∈ l.
Proof.
  induction l as [|x l IH]; [left; reflexivity|]. right.
  destruct l as [|y l]; [left|].
  destruct IH as [IH | IH]; [discriminate|]. right. exact IH.
Qed.

Lemma after_last_elems c s x : x ∈ Url.after_last c s -> x ∈ s.
Proof.
  unfold Url.after_last. intros Hx.
  destruct (last_default_elem (Py.split c s) s) as [Hl | Hl].
  - rewrite Hl in Hx. exact Hx.
  - exact (split_elems _ _ _ _ Hl Hx).
Qed.

Lemma splitparams_elems url x : x ∈ (Url.splitparams url).1 -> x ∈ url.
Proof.
  unfold Url.splitparams. destruct (Py.mem "/" url).
  - destruct (Py.split1 ";" (Url.after_last "/" url)) as [[a b]|] eqn:Hs;
      cbn; [|auto].
    apply split1_some in Hs as [Hs _]. intros Hx.
    apply elem_of_app in Hx as [Hx | Hx].
    + exact (elem_of_firstn _ _ _ Hx).
    + apply (after_last_elems "/"). rewrite Hs. apply elem_of_app. left.
      exact Hx.
  - destruct (Py.split1 ";" url) as [[a b]|] eqn:Hs; cbn.
    + apply split1_some in Hs as [-> _]. intros Hx. apply elem_of_app. left.
      exact Hx.
    + apply elem_of_firstn.
Qed.

Section Shape.
Context `{HC : HostCheck}.

(** The components [urlsplit] returns for the default scheme hold only
    plain characters. *)
Lemma urlsplit_plain url r :
  Url.urlsplit url [] = Some r ->
  Forall (fun c => plain_chr c = true) (Url.s_scheme r)
  /\ Forall (fun c => plain_chr c = true) (Url.s_netloc r)
  /\ Forall (fun c => plain_chr c = true) (Url.s_path r)
  /\ Forall (fun c => plain_chr c = true) (Url.s_query r).
Proof.
  unfold Url.urlsplit.
  set (u := Py.remove_chars Url.unsafe_bytes
              (Py.lstrip_by Url.is_c0_or_space url)).
  assert (Hu : forall c, c ∈ u -> Py.mem c Url.unsafe_bytes = false).
  { intros c Hc. unfold u, Py.remove_chars in Hc.
    apply list_elem_of_In, filter_In in Hc as [_ Hc].
    apply negb_true_iff in Hc. exact Hc. }
  change (Py.remove_chars Url.unsafe_bytes
            (Py.strip_by Url.is_c0_or_space [])) with (@nil ascii).
  (* the scheme and what follows it *)
  assert (Hs : exists sch rest,
    match Py.split1 ":" u with
    | Some (c :: pre, post) =>
        if Py.is_ascii_alpha c && forallb Url.is_scheme_chr (c :: pre)
        then (Py.lower (c :: pre), post) else ([], u)
    | _ => ([], u)
    end = (sch, rest)
    /\ Forall (fun c => plain_chr c = true) sch
    /\ (forall c, c ∈ rest -> c ∈ u)).
  { destruct (Py.split1 ":" u) as [[[|c pre] post]|] eqn:Hsp;
      try (exists [], u; repeat split; [constructor | auto]).
    destruct (Py.is_ascii_alpha c && forallb Url.is_scheme_chr (c :: pre))
      eqn:Hc; [|exists [], u; repeat split; [constructor | auto]].
    exists (Py.lower (c :: pre)), post. split; [reflexivity|]. split.
    - apply andb_true_iff in Hc as [_ Hc]. rewrite forallb_forall in Hc.
      apply Forall_forall. intros x Hx. unfold Py.lower in Hx.
      apply list_elem_of_fmap in Hx as (y & -> & Hy).
      apply scheme_chr_plain, Hc, list_elem_of_In, Hy.
    - apply split1_some in Hsp as [-> _]. intros x Hx.
      apply elem_of_app. right. apply elem_of_cons. right. exact Hx. }
  destruct Hs as (sch & rest & -> & Hsch & Hrest).
  (* the path and the query of a remainder *)
  assert (Hpq : forall netloc v,
    (forall c, c ∈ v -> c ∈ u) ->
    Forall (fun c => plain_chr c = true) netloc ->
    let r := (let '(v, fragment) :=
                match Py.split1 "#" v with
                | Some (a, b) => (a, b)
                | None => (v, [])
                end in
              let '(v, query) :=
                match Py.split1 "?" v with
                | Some (a, b) => (a, b)
                | None => (v, [])
                end in
              Url.mkSplit sch netloc v query fragment) in
    Forall (fun c => plain_chr c = true) (Url.s_scheme r)
    /\ Forall (fun c => plain_chr c = true) (Url.s_netloc r)
    /\ Forall (fun c => plain_chr c = true) (Url.s_path r)
    /\ Forall (fun c => plain_chr c = true) (Url.s_query r)).
  { intros netloc v Hv Hn.
    assert (Hfrag : exists a f,
      match Py.split1 "#" v with
      | Some (a, b) => (a, b)
      | None => (v, [])
      end = (a, f)
      /\ ("#"%char ∉ a) /\ (forall c, c ∈ a -> c ∈ v)).
    { destruct (Py.split1 "#" v) as [[a b]|] eqn:Hf.
      - exists a, b. apply split1_some in Hf as [-> Ha].
        repeat split; [exact Ha|]. intros c Hc. apply elem_of_app. left.
        exact Hc.
      - exists v, []. apply split1_none in Hf. repeat split; auto. }
    destruct Hfrag as (a & f & -> & Ha & Hav).
    assert (Hplain : forall c, c ∈ a -> plain_chr c = true).
    { intros c Hc. apply plain_of_safe; [intros ->; contradiction|].
      apply Hu, Hv, Hav, Hc. }
    destruct (Py.split1 "?" a) as [[p q]|] eqn:Hq; cbn.
    - apply split1_some in Hq as [-> _].
      repeat split; try assumption; apply Forall_forall; intros c Hc;
        apply Hplain.
      + apply elem_of_app. left. exact Hc.
      + apply elem_of_app. right. apply elem_of_cons. right. exact Hc.
    - repeat split; try assumption; [|constructor].
      apply Forall_forall. exact Hplain. }
  destruct (Py.startswith (lit "//") rest).
  - unfold Url.splitnetloc.
    destruct (break_at_parts Url.is_netloc_delim (skipn 2 rest)) as [Hb1 Hb2].
    destruct (Py.break_at Url.is_netloc_delim (skipn 2 rest)) as [netloc v].
    cbn [fst snd] in Hb1, Hb2.
    destruct (Url.netloc_ok netloc); [|discriminate].
    intros [= <-]. apply Hpq.
    + intros c Hc. apply Hrest. apply (elem_of_skipn 2). rewrite Hb1.
      apply elem_of_app. right. exact Hc.
    + apply Forall_forall. intros c Hc. apply plain_of_safe.
      * intros ->. rewrite Forall_forall in Hb2. specialize (Hb2 _ Hc).
        discriminate.
      * apply Hu, Hrest. apply (elem_of_skipn 2). rewrite Hb1.
        apply elem_of_app. left. exact Hc.
  - intros [= <-]. apply Hpq; [exact Hrest | constructor].
Qed.

Lemma urlparse_plain url r :
  Url.urlparse url [] = Some r ->
  Forall (fun c => plain_chr c = true) (Url.scheme r)
  /\ Forall (fun c => plain_chr c = true) (Url.netloc r)
  /\ Forall (fun c => plain_chr c = true) (Url.path r)
  /\ Forall (fun c => plain_chr c = true) (Url.query r).
Proof.
  unfold Url.urlparse. destruct (Url.urlsplit url []) as [sr|] eqn:Hs;
    [|discriminate].
  apply urlsplit_plain in Hs as (H1 & H2 & H3 & H4).
  destruct (Url.in_list (Url.s_scheme sr) Url.uses_params
            && Py.mem ";" (Url.s_path sr)).
  - destruct (Url.splitparams (Url.s_path sr)) as [p q] eqn:Hp.
    intros [= <-]. cbn. repeat split; try assumption.
    apply Forall_forall. intros c Hc. rewrite Forall_forall in H3.
    apply H3, splitparams_elems. rewrite Hp. exact Hc.
  - intros [= <-]. cbn. repeat split; assumption.
Qed.

(** X12. A normalized URL holds no fragment marker, no tab, carriage
    return or line feed, and does not end with a slash. *)
Theorem normalize_url_shape self url r :
  normalize_url self url = Some r ->
  Forall (fun c => plain_chr c = true) r /\ last r <> Some "/"%char.
Proof.
  unfold normalize_url.
  destruct (Url.urljoin (base_url self) url) as [joined|]; [|discriminate].
  destruct (Url.urlparse joined []) as [parsed|] eqn:Hp; [|discriminate].
  intros [= <-]. split.
  - apply urlparse_plain in Hp as (H1 & H2 & H3 & H4).
    apply Forall_forall. intros c Hc. apply rstrip_elem in Hc.
    assert (Hclean : Forall (fun c => plain_chr c = true)
                       (Url.scheme parsed ++ lit "://" ++ Url.netloc parsed
                        ++ Url.path parsed)).
    { repeat (apply Forall_app; split); try assumption.
      repeat constructor. }
    revert c Hc. apply Forall_forall. unfold clean_url.
    destruct (Py.truthy (Url.query parsed)); [|exact Hclean].
    repeat (apply Forall_app; split); try assumption;
      cbn; repeat constructor.
  - intros Hl. apply rstrip_last in Hl. discriminate.
Qed.

End Shape.

(** * Links of a page and the bookkeeping of the traversal *)

Section LinkProps.
Context `{HC : HostCheck}.
Variable W : World.
Variable self : Scraper.

(** What the loop of [get_internal_links] adds: exactly the normalised
    targets of the anchors that are valid and not yet visited. *)
Lemma collect_links_spec url visited anchors : forall acc links,
  collect_links self url visited anchors acc = Some links ->
  forall l, l ∈ links <->
    l ∈ acc
    \/ (is_valid_url self l = true /\ (l ∉ visited)
        /\ exists a href,
             a ∈ anchors
             /\ Url.urljoin url (Soup.attr_str (lit "href") (t_node a))
                = Some href
             /\ normalize_url self href = Some l).
Proof.
  induction anchors as [|a rest IH]; intros acc links Hc l;
    cbn [collect_links] in Hc.
  - injection Hc as <-. split; [auto|].
    intros [H | (_ & _ & a & href & Ha & _)]; [exact H | inversion Ha].
  - destruct (Url.urljoin url _) as [href|] eqn:Hj; [|discriminate].
    destruct (normalize_url self href) as [n|] eqn:Hn; [|discriminate].
    destruct (is_valid_url self n && negb (bool_decide (n ∈ visited)))
      eqn:Hok.
    + apply andb_true_iff in Hok as [Hvalid Hnew].
      apply negb_true_iff, bool_decide_eq_false in Hnew.
      rewrite (IH _ _ Hc l). split.
      * intros [H | (Hv & Hnv & a' & href' & Ha' & Hj' & Hn')].
        -- apply elem_of_app in H as [H | H]; [left; exact H|].
           apply list_elem_of_singleton in H. subst l. right.
           split; [exact Hvalid|]. split; [exact Hnew|].
           exists a, href. split; [left|]. split; assumption.
        -- right. split; [exact Hv|]. split; [exact Hnv|].
           exists a', href'. split; [right; exact Ha'|]. split; assumption.
      * intros [H | (Hv & Hnv & a' & href' & Ha' & Hj' & Hn')].
        -- left. apply elem_of_app. left. exact H.
        -- apply elem_of_cons in Ha' as [-> | Ha'].
           ++ left. apply elem_of_app. right. apply list_elem_of_singleton.
              rewrite Hj in Hj'. injection Hj' as <-.
              rewrite Hn in Hn'. injection Hn' as <-. reflexivity.
           ++ right. split; [exact Hv|]. split; [exact Hnv|].
              exists a', href'. split; [exact Ha'|]. split; assumption.
    + rewrite (IH _ _ Hc l). split.
      * intros [H | (Hv & Hnv & a' & href' & Ha' & Hj' & Hn')];
          [left; exact H|].
        right. split; [exact Hv|]. split; [exact Hnv|].
        exists a', href'. split; [right; exact Ha'|]. split; assumption.
      * intros [H | (Hv & Hnv & a' & href' & Ha' & Hj' & Hn')];
          [left; exact H|].
        apply elem_of_cons in Ha' as [-> | Ha'].
        -- rewrite Hj in Hj'. injection Hj' as <-.
           rewrite Hn in Hn'. injection Hn' as <-.
           rewrite Hv in Hok. cbn in Hok.
           apply negb_false_iff, bool_decide_eq_true in Hok. contradiction.
        -- right. split; [exact Hv|]. split; [exact Hnv|].
           exists a', href'. split; [exact Ha'|]. split; assumption.
Qed.

(** X13. The links [get_internal_links] returns have no repetition and
    are exactly the normalised targets of the anchors with an [href]
    that lie on the base domain and are not yet visited. *)
Theorem internal_links_exact html url visited links :
  get_internal_links W self html url visited = Some links ->
  NoDup links
  /\ forall l, l ∈ links <->
       (is_valid_url self l = true /\ (l ∉ visited)
        /\ exists a href,
             a ∈ Soup.find_all is_link (Soup.root (parse_html W html))
             /\ Url.urljoin url (Soup.attr_str (lit "href") (t_node a))
                = Some href
             /\ normalize_url self href = Some l).
Proof.
  unfold get_internal_links.
  destruct (collect_links self url visited _ []) as [found|] eqn:Hc;
    [|discriminate].
  intros [= <-]. split; [apply set_list_nodup|].
  intros l. rewrite set_list_elem, (collect_links_spec _ _ _ _ _ Hc l).
  split; [|auto]. intros [H | H]; [inversion H | exact H].
Qed.

(** A scraper whose base domain is empty accepts no URL. *)
Lemma no_domain_no_url url :
  base_domain self = [] -> is_valid_url self url = false.
Proof.
  intros Hd. unfold is_valid_url.
  destruct (Url.urlparse url []) as [parsed|]; [|reflexivity].
  rewrite Hd. destruct (Url.netloc parsed); reflexivity.
Qed.

Lemma no_domain_no_links html url visited links :
  base_domain self = [] ->
  get_internal_links W self html url visited = Some links -> links = [].
Proof.
  intros Hd. unfold get_internal_links.
  destruct (collect_links self url visited _ []) as [found|] eqn:Hc;
    [|discriminate].
  intros [= <-].
  assert (Hnone : forall l, l ∉ set_list W found).
  { intros l. rewrite set_list_elem, (collect_links_spec _ _ _ _ _ Hc l).
    intros [H | (Hv & _)]; [inversion H|].
    rewrite no_domain_no_url in Hv by exact Hd. discriminate. }
  destruct (set_list W found) as [|x xs]; [reflexivity|].
  exfalso. apply (Hnone x). left.
Qed.

(** *** What a call adds to the visited set, the requests and the results *)

Lemma accounted_refl st : accounted st st.
Proof.
  exists [], []. rewrite !app_nil_r, list_to_set_nil, (right_id_L ∅ (∪)).
  repeat split. lia.
Qed.

Lemma accounted_trans st1 st2 st3 :
  accounted st1 st2 -> accounted st2 st3 -> accounted st1 st3.
Proof.
  intros (n1 & p1 & Hf1 & Hv1 & Hr1 & Hl1) (n2 & p2 & Hf2 & Hv2 & Hr2 & Hl2).
  exists (n1 ++ n2), (p1 ++ p2).
  rewrite Hf2, Hf1, Hv2, Hv1, Hr2, Hr1, !app_assoc, !length_app.
  repeat split; [|lia]. rewrite list_to_set_app_L, (assoc_L (∪)).
  reflexivity.
Qed.

Lemma accounted_called u d st : accounted st (record_event (Called u d) st).
Proof.
  exists [], []. cbn [record_event history visited_urls results].
  rewrite fetched_urls_called, !app_nil_r, list_to_set_nil,
    (right_id_L ∅ (∪)).
  repeat split. lia.
Qed.

Lemma accounted_requested u d st : accounted st (requested u d st).
Proof.
  exists [u], []. cbn [requested history visited_urls results].
  rewrite fetched_urls_fetched, app_nil_r, list_to_set_singleton_L,
    (comm_L (∪)).
  repeat split. cbn. lia.
Qed.

Lemma accounted_page u d md st :
  accounted st (appended md (requested u d st)).
Proof.
  exists [u], [md]. cbn [appended requested history visited_urls results].
  rewrite fetched_urls_fetched, list_to_set_singleton_L, (comm_L (∪)).
  repeat split. cbn. lia.
Qed.

Lemma visit_links_accounted fuel depth :
  (forall url d st, accounted st (scrape W self fuel url d st).2) ->
  forall links st, accounted st (visit_links W self fuel depth links st).2.
Proof.
  intros Hrec links. induction links as [|link rest IH]; intros st.
  - apply accounted_refl.
  - cbn [visit_links]. specialize (Hrec (Some link) (depth + 1)%Z st).
    destruct (scrape W self fuel (Some link) (depth + 1) st) as [[] st'];
      cbn in *; try exact Hrec.
    eapply accounted_trans; [exact Hrec | apply IH].
Qed.

Lemma scrape_accounted fuel : forall url depth st,
  accounted st (scrape W self fuel url depth st).2.
Proof.
  induction fuel as [|fuel IH]; intros url depth st; rewrite scrape_eq;
    cbv zeta.
  all: set (st1 := record_event _ st).
  all: assert (H1 : accounted st st1) by apply accounted_called.
  all: destruct (normalize_url self _) as [u|]; [|exact H1].
  all: destruct (bool_decide (u ∈ visited_urls st1) || (max_depth self <? depth)%Z);
    [exact H1|].
  all: assert (H2 : accounted st (requested u depth st1))
    by (eapply accounted_trans; [exact H1 | apply accounted_requested]).
  all: destruct (http_get W _ u) as [html|]; [|exact H2].
  all: unfold scrape_page.
  all: destruct (extract_markdown _ u) as [md|]; [|exact H2].
  all: assert (H3 : accounted st (appended md (requested u depth st1)))
    by (eapply accounted_trans; [exact H1 | apply accounted_page]).
  all: cbv zeta; destruct (depth <? max_depth self)%Z; [|exact H3].
  all: destruct (get_internal_links W self html u _) as [links|];
    [|exact H3].
  - exact H3.
  - eapply accounted_trans; [exact H3|]. apply visit_links_accounted.
    exact IH.
Qed.

(** X14. Whatever a call of [scrape] does, the visited set grows by
    exactly the URLs it requested, the results only grow at the end, and
    at most one page document is appended per request.  In a run from a
    fresh scraper the visited set is the set of requested URLs and there
    are no more page documents than requests. *)
Theorem crawl_accounting :
  (forall fuel url depth st,
     let st' := (scrape W self fuel url depth st).2 in
     exists new pages,
       fetched_urls (history st') = fetched_urls (history st) ++ new
       /\ visited_urls st' = visited_urls st ∪ list_to_set new
       /\ results st' = results st ++ pages
       /\ (length pages <= length new)%nat)
  /\ (let st' := (run W self).2 in
      visited_urls st' = list_to_set (fetched_urls (history st'))
      /\ (length (results st') <= length (fetched_urls (history st')))%nat).
Proof.
  split; [intros fuel url depth st; apply scrape_accounted|].
  destruct (scrape_accounted (depth_budget self 0) None 0 initial_state)
    as (new & pages & Hf & Hv & Hr & Hl).
  unfold run. cbn in Hf, Hv, Hr |- *. rewrite Hf, Hv, Hr.
  split; [apply (left_id_L ∅ (∪)) | exact Hl].
Qed.

(** X15. A scraper whose base domain is empty (a base URL without
    [//host]) accepts no URL, finds no link on any page, and a call of
    [scrape] issues at most one request. *)
Theorem empty_domain_single_page :
  base_domain self = [] ->
  (forall url, is_valid_url self url = false)
  /\ (forall html url visited links,
        get_internal_links W self html url visited = Some links ->
        links = [])
  /\ (forall fuel url depth st,
        let st' := (scrape W self fuel url depth st).2 in
        exists new,
          fetched_urls (history st') = fetched_urls (history st) ++ new
          /\ (length new <= 1)%nat).
Proof.
  intros Hd. split; [intros url; apply no_domain_no_url, Hd|].
  split; [intros html url visited links; apply no_domain_no_links, Hd|].
  intros fuel url depth st. rewrite scrape_eq. cbv zeta.
  set (st1 := record_event _ st).
  assert (H1 : fetched_urls (history st1) = fetched_urls (history st) ++ [])
    by (cbn; rewrite fetched_urls_called, app_nil_r; reflexivity).
  assert (H2 : forall u md,
    fetched_urls (history (appended md (requested u depth st1)))
    = fetched_urls (history st) ++ [u])
    by (intros u md; cbn; rewrite fetched_urls_fetched, fetched_urls_called;
        reflexivity).
  destruct (normalize_url self _) as [u|]; [|exists []; split; [exact H1|cbn; lia]].
  destruct (bool_decide (u ∈ visited_urls st1) || (max_depth self <? depth)%Z);
    [exists []; split; [exact H1|cbn; lia]|].
  destruct (http_get W _ u) as [html|];
    [|exists [u]; split; [exact (H2 u [])|cbn; lia]].
  unfold scrape_page.
  destruct (extract_markdown _ u) as [md|];
    [|exists [u]; split; [exact (H2 u [])|cbn; lia]].
  cbv zeta. destruct (depth <? max_depth self)%Z;
    [|exists [u]; split; [exact (H2 u md)|cbn; lia]].
  destruct (get_internal_links W self html u _) as [links|] eqn:Hl;
    [|exists [u]; split; [exact (H2 u md)|cbn; lia]].
  apply no_domain_no_links in Hl; [|exact Hd]. subst links.
  destruct fuel; exists [u]; (split; [exact (H2 u md)|cbn; lia]).
Qed.

(** The visited set only grows along the transitions. *)
Lemma crawl_steps_visited st st' :
  rtc crawl_step st st' -> visited_urls st ⊆ visited_urls st'.
Proof.
  induction 1 as [|x y z Hxy _ IH]; [reflexivity|].
  etrans; [|exact IH].
  destruct Hxy; cbn; [reflexivity | apply union_subseteq_r | reflexivity].
Qed.

(** X16. After a call within the depth limit the normalised URL of the
    call is marked visited, so any later call for a URL with the same
    normal form, at any depth and in any later state, returns at once:
    it issues no request and appends nothing. *)
Theorem revisit_is_skipped fuel url depth st u :
  normalize_url self (seed self url) = Some u ->
  (depth <= max_depth self)%Z ->
  let st' := (scrape W self fuel url depth st).2 in
  u ∈ visited_urls st'
  /\ (forall fuel2 url2 depth2 st2,
        normalize_url self (seed self url2) = Some u ->
        rtc crawl_step st' st2 ->
        scrape W self fuel2 url2 depth2 st2
        = (Returned, record_event (Called (seed self url2) depth2) st2)).
Proof.
  intros Hn Hd st'.
  assert (Hin : u ∈ visited_urls st').
  { unfold st'. rewrite scrape_eq. cbv zeta. rewrite Hn.
    set (st1 := record_event _ st).
    destruct (bool_decide (u ∈ visited_urls st1)) eqn:Hv.
    - cbn. apply bool_decide_eq_true in Hv. exact Hv.
    - apply Z.ltb_ge in Hd. rewrite Hd. cbn [orb].
      assert (Hreq : u ∈ visited_urls (requested u depth st1))
        by (cbn; apply elem_of_union_l, elem_of_singleton; reflexivity).
      destruct (http_get W _ u) as [html|]; [|exact Hreq].
      pose proof (scrape_steps W self fuel url depth st) as Hsteps.
      assert (Hpage : rtc crawl_step (requested u depth st1)
                (scrape_page W self fuel depth u html
                   (requested u depth st1)).2).
      { unfold scrape_page.
        destruct (extract_markdown _ u) as [md|]; [|apply rtc_refl].
        cbv zeta.
        assert (H3 : rtc crawl_step (requested u depth st1)
                       (appended md (requested u depth st1)))
          by apply rtc_once, step_appended.
        destruct (depth <? max_depth self)%Z; [|exact H3].
        destruct (get_internal_links W self html u _) as [links|];
          [|exact H3].
        destruct fuel as [|fuel]; [exact H3|].
        etrans; [exact H3|]. apply visit_links_steps.
        intros; apply scrape_steps. }
      apply (crawl_steps_visited _ _ Hpage), Hreq. }
  split; [exact Hin|].
  intros fuel2 url2 depth2 st2 Hn2 Hsteps. rewrite scrape_eq. cbv zeta.
  rewrite Hn2. cbn [record_event visited_urls].
  rewrite bool_decide_eq_true_2
    by (apply (crawl_steps_visited _ _ Hsteps), Hin).
  reflexivity.
Qed.

(** X17. A call at the last level, [depth >= max_depth], never recurses:
    it needs no fuel, issues at most one request and appends at most one
    page document.  With [max_depth = 0] a run therefore requests the
    start page only. *)
Theorem last_level_single_page fuel url depth st :
  (max_depth self <= depth)%Z ->
  let r := scrape W self fuel url depth st in
  r.1 <> OutOfFuel
  /\ exists new pages,
       fetched_urls (history r.2) = fetched_urls (history st) ++ new
       /\ results r.2 = results st ++ pages
       /\ (length pages <= length new)%nat /\ (length new <= 1)%nat.
Proof.
  intros Hd. cbv zeta. rewrite scrape_eq. cbv zeta.
  set (st1 := record_event _ st).
  assert (H1 : fetched_urls (history st1) = fetched_urls (history st) ++ []
               /\ results st1 = results st ++ []
               /\ (length (@nil str) <= length (@nil str))%nat
               /\ (length (@nil str) <= 1)%nat).
  { cbn. rewrite fetched_urls_called, !app_nil_r. repeat split; lia. }
  assert (H2 : forall u,
    fetched_urls (history (requested u depth st1))
    = fetched_urls (history st) ++ [u]
    /\ results (requested u depth st1) = results st ++ []
    /\ (length (@nil str) <= length [u])%nat /\ (length [u] <= 1)%nat).
  { intros u. cbn. rewrite fetched_urls_fetched, fetched_urls_called,
      app_nil_r. repeat split; lia. }
  assert (H3 : forall u md,
    fetched_urls (history (appended md (requested u depth st1)))
    = fetched_urls (history st) ++ [u]
    /\ results (appended md (requested u depth st1)) = results st ++ [md]
    /\ (length [md] <= length [u])%nat /\ (length [u] <= 1)%nat).
  { intros u md. cbn. rewrite fetched_urls_fetched, fetched_urls_called.
    repeat split; lia. }
  destruct (normalize_url self _) as [u|];
    [|split; [discriminate | exists [], []; exact H1]].
  destruct (bool_decide (u ∈ visited_urls st1) || (max_depth self <? depth)%Z);
    [split; [discriminate | exists [], []; exact H1]|].
  destruct (http_get W _ u) as [html|];
    [|split; [discriminate | exists [u], []; exact (H2 u)]].
  unfold scrape_page.
  destruct (extract_markdown _ u) as [md|];
    [|split; [discriminate | exists [u], []; exact (H2 u)]].
  cbv zeta. apply Z.ltb_ge in Hd. rewrite Hd.
  split; [discriminate | exists [u], [md]; exact (H3 u md)].
Qed.

End LinkProps.

(** * Inline text without markup *)

Section InlineProps.
Context `{HC : HostCheck}.



(** X19. The scraper [__init__] builds accepts its own base URL exactly
    when that URL has a domain. *)
Theorem base_url_valid base depth self :
  new_scraper base depth = Some self ->
  base_url self = base /\ max_depth self = depth
  /\ is_valid_url self base = Py.truthy (base_domain self).
Proof.
  unfold new_scraper, is_valid_url.
  destruct (Url.urlparse base []) as [parsed|]; [|discriminate].
  intros [= <-]. cbn. repeat split.
  unfold Py.str_eqb. rewrite bool_decide_eq_true_2 by reflexivity.
  apply andb_true_r.
Qed.

End InlineProps.

(** * The statements above at concrete inputs *)

Lemma extract_markdown_newlines_witness :
  exists md parts,
    extract_markdown (HC := no_bracketed_hosts) nested_list_page
                     (lit "http://h/") = Some md
    /\ extract_parts (HC := no_bracketed_hosts) nested_list_page
                     (lit "http://h/") = Some parts
    /\ Py.contains four_newlines md = false.
Proof.
  assert (Hmd : { md | extract_markdown (HC := no_bracketed_hosts)
                         nested_list_page (lit "http://h/") = Some md })
    by (vm_compute; eexists; reflexivity).
  destruct Hmd as [md Hmd].
  destruct (extract_markdown_newlines (HC := no_bracketed_hosts)
              nested_list_page (lit "http://h/") md Hmd)
    as (parts & Hp & Hc & _).
  exists md, parts. split; [exact Hmd|]. split; [exact Hp | exact Hc].
Defined.

Lemma code_language_witness : get_code_language code_js = lit "js".
Proof.
  destruct (code_language_from_classes code_js
              [lit "hljs"; lit "language-js"]) as (_ & H & _).
  - reflexivity.
  - apply (H [lit "hljs"] (lit "js") []).
    + reflexivity.
    + constructor; [split; reflexivity | constructor].
    + reflexivity.
Defined.

Lemma blockquote_one_line_witness :
  render_block (HC := no_bracketed_hosts) (lit "http://h/") quote_kind
  = Some [[nl] ++ lit "> Be kind" ++ [nl]].
Proof.
  destruct (blockquote_one_line (HC := no_bracketed_hosts) (lit "http://h/")
              quote_kind) as [H _].
  - reflexivity.
  - rewrite H. vm_compute. reflexivity.
Defined.

Lemma heading_one_line_witness :
  render_block (HC := no_bracketed_hosts) (lit "http://h/") heading_routing
  = Some [[nl] ++ lit "## Routing" ++ [nl]].
Proof.
  destruct (heading_one_line (HC := no_bracketed_hosts) (lit "http://h/")
              heading_routing (lit "h2")) as (level & Hl & Hn & H & _).
  - reflexivity.
  - apply (list_elem_of_lookup_2 _ 1%nat). reflexivity.
  - rewrite H. clear H.
    destruct level as [|[|[|[|[|[|[|level]]]]]]]; try lia;
      try (vm_compute in Hn; discriminate Hn).
    vm_compute. reflexivity.
Defined.

Lemma fragments_in_document_order_witness :
  exists parts rendered,
    extract_parts (HC := no_bracketed_hosts) nested_list_page
                  (lit "http://h/") = Some parts
    /\ parts
       = page_header (Soup.root (prune nested_list_page)) (lit "http://h/")
         ++ concat rendered.
Proof.
  assert (Hp : { parts | extract_parts (HC := no_bracketed_hosts)
                           nested_list_page (lit "http://h/") = Some parts })
    by (vm_compute; eexists; reflexivity).
  destruct Hp as [parts Hp].
  destruct (fragments_in_document_order (HC := no_bracketed_hosts)
              nested_list_page (lit "http://h/") parts Hp)
    as (rendered & _ & H).
  exists parts, rendered. split; [exact Hp | exact H].
Defined.

Lemma normalize_url_shape_witness :
  normalize_url (HC := no_bracketed_hosts) docs_scraper (lit "guide/#top")
  = Some (lit "https://example.com/guide")
  /\ Forall (fun c => plain_chr c = true) (lit "https://example.com/guide")
  /\ last (lit "https://example.com/guide") <> Some "/"%char.
Proof.
  assert (H : normalize_url (HC := no_bracketed_hosts) docs_scraper
                (lit "guide/#top") = Some (lit "https://example.com/guide"))
    by (vm_compute; reflexivity).
  split; [exact H|].
  exact (normalize_url_shape (HC := no_bracketed_hosts) docs_scraper
           (lit "guide/#top") (lit "https://example.com/guide") H).
Defined.

Lemma internal_links_exact_witness :
  get_internal_links (HC := no_bracketed_hosts) linked_world example_scraper
    (lit "<html></html>") (lit "http://h/a") {[lit "http://h/a"]}
  = Some [lit "http://h/b"]
  /\ NoDup [lit "http://h/b"]
  /\ is_valid_url (HC := no_bracketed_hosts) example_scraper (lit "http://h/b")
     = true.
Proof.
  assert (H : get_internal_links (HC := no_bracketed_hosts) linked_world
                example_scraper (lit "<html></html>") (lit "http://h/a")
                {[lit "http://h/a"]} = Some [lit "http://h/b"])
    by (vm_compute; reflexivity).
  split; [exact H|].
  destruct (internal_links_exact (HC := no_bracketed_hosts) linked_world
              example_scraper _ _ _ _ H) as [Hn Hl].
  split; [exact Hn|].
  apply (Hl (lit "http://h/b")). left.
Defined.

Lemma empty_domain_single_page_witness :
  is_valid_url (HC := no_bracketed_hosts) relative_scraper
               (lit "http://h/docs/page") = false.
Proof.
  destruct (empty_domain_single_page (HC := no_bracketed_hosts) example_world
              relative_scraper) as [H _]; [reflexivity | apply H].
Defined.

Lemma last_level_single_page_witness :
  exists new pages,
    fetched_urls (history (scrape (HC := no_bracketed_hosts) offline_world
                             docs_scraper 0 None 0 initial_state).2)
    = new
    /\ results (scrape (HC := no_bracketed_hosts) offline_world
                  docs_scraper 0 None 0 initial_state).2 = pages
    /\ (length pages <= length new)%nat /\ (length new <= 1)%nat.
Proof.
  destruct (last_level_single_page (HC := no_bracketed_hosts) offline_world
              docs_scraper 0 None 0 initial_state)
    as (_ & new & pages & H); [cbn; lia|].
  exists new, pages. exact H.
Defined.

Lemma revisit_is_skipped_witness :
  lit "http://h/a"
  ∈ visited_urls (scrape (HC := no_bracketed_hosts) example_world
                    example_scraper 1 None 0 initial_state).2.
Proof.
  destruct (revisit_is_skipped (HC := no_bracketed_hosts) example_world
              example_scraper 1 None 0 initial_state (lit "http://h/a"))
    as [H _].
  - vm_compute. reflexivity.
  - cbn. lia.
  - exact H.
Defined.


Lemma base_url_valid_witness :
  is_valid_url (HC := no_bracketed_hosts) example_scraper (lit "http://h/a")
  = true.
Proof.
  destruct (base_url_valid (HC := no_bracketed_hosts) (lit "http://h/a") 1
              example_scraper) as (_ & _ & H).
  - vm_compute. reflexivity.
  - rewrite H. reflexivity.
Defined.
